(** * Weekly-summary ETL: the normalisation core of
      [etl_weekly_summary_to_mysql.py]

    A shallow embedding of [tidy_weekly_summary], of the scope filter and
    the in-process aggregates of [main], and of the SQL text that [main]
    sends to the database.

    Conventions of the model.
    - A Python [str] is a [string]; a character is a code point below 256,
      so the Unicode classes of [re] ([\s], [\d], IGNORECASE) and of
      [str.strip]/[str.lower] are the ones of that range.
    - A pandas cell that may be missing is an [option]: [None] is NaN/NULL.
    - A float64 is the rational it denotes ([Q], kept reduced); rounding,
      overflow and the spellings of infinity are outside the model.  A
      statement that adds values, or that compares the value of a cell
      in two frames, is made for whole numbers within [2^53], which
      int64 and float64 both hold as they are. *)

From Stdlib Require Import Strings.String Strings.Ascii Lists.List.
From Stdlib Require Import ZArith QArith Bool Arith Lia Sorting.Permutation.
Import ListNotations.

Local Open Scope string_scope.
Local Open Scope list_scope.
Local Open Scope nat_scope.

(* ================================================================== *)
(** ** Characters and strings as Python sees them *)

Module Py.

Definition code (c : ascii) : nat := nat_of_ascii c.

(** [str.isspace] on one code point; also the class [\s] of [re]. *)
Definition isspace (c : ascii) : bool :=
  let n := code c in
  ((9 <=? n) && (n <=? 13)) || ((28 <=? n) && (n <=? 32))
  || (n =? 133) || (n =? 160).

(** The class [\d] of [re]: the decimal digits of the range. *)
Definition isdigit (c : ascii) : bool :=
  let n := code c in (48 <=? n) && (n <=? 57).

(** [str.lower] on one code point. *)
Definition lower_char (c : ascii) : ascii :=
  let n := code c in
  if ((65 <=? n) && (n <=? 90))
     || ((192 <=? n) && (n <=? 222) && negb (n =? 215))
  then ascii_of_nat (n + 32) else c.

Fixpoint lower (s : string) : string :=
  match s with
  | EmptyString => EmptyString
  | String c t => String (lower_char c) (lower t)
  end.

Fixpoint all (p : ascii -> bool) (s : string) : bool :=
  match s with
  | EmptyString => true
  | String c t => p c && all p t
  end.

(** [s.lstrip()] *)
Fixpoint lstrip (s : string) : string :=
  match s with
  | EmptyString => EmptyString
  | String c t => if isspace c then lstrip t else s
  end.

(** [s.rstrip()] *)
Fixpoint rstrip (s : string) : string :=
  match s with
  | EmptyString => EmptyString
  | String c t =>
      match rstrip t with
      | EmptyString => if isspace c then EmptyString else String c EmptyString
      | t' => String c t'
      end
  end.

(** [s.strip()] *)
Definition strip (s : string) : string := rstrip (lstrip s).

Definition digit_val (c : ascii) : Z := Z.of_nat (code c) - 48.

Fixpoint int_acc (acc : Z) (s : string) : Z :=
  match s with
  | EmptyString => acc
  | String c t => int_acc (10 * acc + digit_val c) t
  end.

(** [int(s)] for a text made of decimal digits, the only texts that the
    groups [(\d{1,2})] and [(\d{4})] can hold. *)
Definition int (s : string) : Z := int_acc 0 s.

End Py.

(* ================================================================== *)
(** ** The fragment of [re] that the script uses

    Patterns are values of [regex]; [run] lists, in the order in which the
    backtracking matcher of [re] tries them, every way the pattern can
    match at the head of the subject.  An outcome is the matched text, the
    text left over and the groups that were set. *)

Module Re.

Inductive regex : Type :=
  | Eps                                   (* the empty pattern *)
  | Cls (p : ascii -> bool)               (* one character of a class *)
  | Cat (r1 r2 : regex)                   (* r1 r2 *)
  | Alt (r1 r2 : regex)                   (* r1|r2 *)
  | Star (p : ascii -> bool)              (* [p]*, greedy *)
  | Rep (p : ascii -> bool) (lo hi : nat) (* [p]{lo,hi}, greedy *)
  | Grp (n : nat) (r : regex)             (* capturing group number n *)
  | Bos.                                  (* ^ without MULTILINE *)

Definition groups := list (nat * string).
Definition outcome : Type := string * string * groups.

Definition cons_matched (c : ascii) (o : outcome) : outcome :=
  let '(m, rest, g) := o in (String c m, rest, g).

(** Greedy [p*]: the longest run first, then shorter ones. *)
Fixpoint run_star (p : ascii -> bool) (s : string) : list outcome :=
  match s with
  | String c t =>
      if p c
      then map (cons_matched c) (run_star p t) ++ [(EmptyString, s, [])]
      else [(EmptyString, s, [])]
  | EmptyString => [(EmptyString, s, [])]
  end.

(** Greedy [p{lo,hi}]. *)
Fixpoint run_rep (p : ascii -> bool) (lo hi : nat) (s : string)
  : list outcome :=
  match hi with
  | O => match lo with O => [(EmptyString, s, [])] | S _ => [] end
  | S hi' =>
      let stop := match lo with O => [(EmptyString, s, [])] | S _ => [] end in
      match s with
      | String c t =>
          if p c
          then map (cons_matched c) (run_rep p (Nat.pred lo) hi' t) ++ stop
          else stop
      | EmptyString => stop
      end
  end.

Definition is_empty (s : string) : bool :=
  match s with EmptyString => true | _ => false end.

(** [bos] tells whether the head of [s] is the start of the subject. *)
Fixpoint run (r : regex) (bos : bool) (s : string) : list outcome :=
  match r with
  | Eps => [(EmptyString, s, [])]
  | Cls p =>
      match s with
      | String c t => if p c then [(String c EmptyString, t, [])] else []
      | EmptyString => []
      end
  | Cat r1 r2 =>
      flat_map
        (fun o1 : outcome =>
           let '(m1, s1, g1) := o1 in
           map (fun o2 : outcome =>
                  let '(m2, s2, g2) := o2 in ((m1 ++ m2)%string, s2, g1 ++ g2))
               (run r2 (bos && is_empty m1) s1))
        (run r1 bos s)
  | Alt r1 r2 => run r1 bos s ++ run r2 bos s
  | Star p => run_star p s
  | Rep p lo hi => run_rep p lo hi s
  | Grp n r1 =>
      map (fun o : outcome => let '(m, s', g) := o in (m, s', (n, m) :: g))
          (run r1 bos s)
  | Bos => if bos then [(EmptyString, s, [])] else []
  end.

(** [mo.group(n)] *)
Fixpoint group (n : nat) (g : groups) : option string :=
  match g with
  | [] => None
  | (k, v) :: g' => if Nat.eqb k n then Some v else group n g'
  end.

(** [pat.match] at one position: what the matcher finds first. *)
Definition match_here (r : regex) (bos : bool) (s : string)
  : option outcome := hd_error (run r bos s).

(** [pat.search(s)]: the first position, from the left, where the pattern
    matches; the result is the text before the match and the outcome. *)
Fixpoint search_from (r : regex) (bos : bool) (pre s : string)
  : option (string * outcome) :=
  match match_here r bos s with
  | Some o => Some (pre, o)
  | None =>
      match s with
      | String c t =>
          search_from r false (pre ++ String c EmptyString)%string t
      | EmptyString => None
      end
  end.

Definition search (r : regex) (s : string) : option (string * outcome) :=
  search_from r true EmptyString s.

Definition nonempty (o : outcome) : bool :=
  let '(m, _, _) := o in negb (is_empty m).

(** [pat.sub(repl, s)]: every non-overlapping match, leftmost first, is
    replaced.  [skip] counts the characters of the subject that the last
    match still covers.  After an empty match the matcher must advance:
    it takes the first non-empty outcome at the same position, if any. *)
Fixpoint sub_from (r : regex) (repl : outcome -> string)
    (bos : bool) (skip : nat) (s : string) : string :=
  match skip with
  | S k =>
      match s with
      | String _ t => sub_from r repl false k t
      | EmptyString => EmptyString
      end
  | O =>
      let outs := run r bos s in
      let step (o : outcome) (c : ascii) (t : string) : string :=
        let '(m, _, _) := o in
        (repl o ++ sub_from r repl false (Nat.pred (String.length m)) t)%string in
      match outs, s with
      | [], EmptyString => EmptyString
      | [], String c t => String c (sub_from r repl false 0 t)
      | o :: _, EmptyString => repl o
      | o :: _, String c t =>
          if nonempty o then step o c t
          else
            (repl o ++
             match filter nonempty outs with
             | o' :: _ => step o' c t
             | [] => String c (sub_from r repl false 0 t)
             end)%string
      end
  end.

Definition sub (r : regex) (repl : outcome -> string) (s : string)
  : string := sub_from r repl true 0 s.

(** Pattern builders. *)
Definition chr (c : ascii) : regex := Cls (Ascii.eqb c).

(** A literal character under IGNORECASE. *)
Definition chr_i (c : ascii) : regex :=
  Cls (fun x => Ascii.eqb (Py.lower_char x) (Py.lower_char c)).

Fixpoint lit (s : string) : regex :=
  match s with
  | EmptyString => Eps
  | String c EmptyString => chr c
  | String c t => Cat (chr c) (lit t)
  end.

Fixpoint lit_i (s : string) : regex :=
  match s with
  | EmptyString => Eps
  | String c EmptyString => chr_i c
  | String c t => Cat (chr_i c) (lit_i t)
  end.

(** [p+], greedy: one character of the class, then [p*]. *)
Definition plus (p : ascii -> bool) : regex := Cat (Cls p) (Star p).

(** What it means for a pattern to match the text [m] and to set the
    groups [g], for a text that begins at the start of the subject or
    not ([bos]). *)
Fixpoint den (r : regex) (bos : bool) (m : string) (g : groups) : Prop :=
  match r with
  | Eps => m = EmptyString /\ g = []
  | Cls p => exists c, m = String c EmptyString /\ p c = true /\ g = []
  | Cat r1 r2 =>
      exists m1 m2 g1 g2,
        m = (m1 ++ m2)%string /\ g = g1 ++ g2
        /\ den r1 bos m1 g1 /\ den r2 (bos && is_empty m1) m2 g2
  | Alt r1 r2 => den r1 bos m g \/ den r2 bos m g
  | Star p => Py.all p m = true /\ g = []
  | Rep p lo hi =>
      Py.all p m = true /\ lo <= String.length m <= hi /\ g = []
  | Grp n r1 => exists g1, den r1 bos m g1 /\ g = (n, m) :: g1
  | Bos => bos = true /\ m = EmptyString /\ g = []
  end.

End Re.

(* ================================================================== *)
(** ** The pandas operations that [tidy_weekly_summary] calls *)

Module Pandas.

(** A cell of an object column: a text, or NaN. *)
Definition cell := option string.

(** A frame, column by column: the name and the cells of each column,
    in the order of [df.columns].  Names are distinct, as [read_csv]
    delivers them; every column has one cell per row. *)
Definition DataFrame := list (string * list cell).

Definition notna {A} (c : option A) : bool :=
  match c with Some _ => true | None => false end.

(** Boolean indexing of one column by a row mask. *)
Fixpoint select {A} (mask : list bool) (xs : list A) : list A :=
  match mask, xs with
  | b :: mask', x :: xs' =>
      if b then x :: select mask' xs' else select mask' xs'
  | _, _ => []
  end.

Fixpoint somes {A} (xs : list (option A)) : list A :=
  match xs with
  | [] => []
  | Some x :: xs' => x :: somes xs'
  | None :: xs' => somes xs'
  end.

(** [series.astype(str)]: NaN becomes the text [nan]. *)
Definition astype_str (c : cell) : string :=
  match c with Some s => s | None => "nan" end.

(** *** [pd.to_numeric] on one text *)

(** The white space that the C reader skips. *)
Definition c_isspace (c : ascii) : bool :=
  let n := Py.code c in (n =? 32) || ((9 <=? n) && (n <=? 13)).

Fixpoint skip (p : ascii -> bool) (s : string) : string :=
  match s with
  | String c t => if p c then skip p t else s
  | EmptyString => s
  end.

(** The longest prefix in a class, and what follows it. *)
Fixpoint span (p : ascii -> bool) (s : string) : string * string :=
  match s with
  | String c t =>
      if p c then let '(a, b) := span p t in (String c a, b)
      else (EmptyString, s)
  | EmptyString => (EmptyString, s)
  end.

Definition sign (s : string) : bool * string :=
  match s with
  | String "-" t => (true, t)
  | String "+" t => (false, t)
  | _ => (false, s)
  end.

(** An exponent part [e], [E] with an optional sign and digits; without
    digits nothing is consumed. *)
Definition exponent (s : string) : Z * string :=
  match s with
  | String c t =>
      if (Ascii.eqb c "e" || Ascii.eqb c "E")%bool then
        let '(neg, t1) := sign t in
        let '(ds, t2) := span Py.isdigit t1 in
        if Re.is_empty ds then (0%Z, s)
        else ((if neg then - Py.int ds else Py.int ds)%Z, t2)
      else (0%Z, s)
  | EmptyString => (0%Z, s)
  end.

(** The value [m * 10^e]. *)
Definition scale10 (m e : Z) : Q :=
  if (0 <=? e)%Z then inject_Z (m * 10 ^ e)
  else Qred (Qmake m (Z.to_pos (10 ^ (- e)))).

(** The decimal reader: white space, a sign, digits with an optional
    point, an optional exponent, white space, and then the end of the
    text.  [None] is a failed conversion. *)
Definition parse_float (s : string) : option Q :=
  let s1 := skip c_isspace s in
  let '(neg, s2) := sign s1 in
  let '(ip, s3) := span Py.isdigit s2 in
  let '(fp, s4) :=
    match s3 with
    | String "." t => span Py.isdigit t
    | _ => (EmptyString, s3)
    end in
  if Re.is_empty (ip ++ fp)%string then None
  else
    let '(ex, s5) := exponent s4 in
    if Re.is_empty (skip c_isspace s5) then
      let m := Py.int (ip ++ fp)%string in
      Some (scale10 (if neg then - m else m)%Z
                    (ex - Z.of_nat (String.length fp))%Z)
    else None.

Inductive converted : Type :=
  | Float (q : Q)
  | NaN
  | ValueError.

Definition is_nan_word (s : string) : bool :=
  let l := Py.lower s in
  String.eqb l "nan" || String.eqb l "+nan" || String.eqb l "-nan".

(** One element of [pd.to_numeric(v)]: the empty text is NaN, a text
    that is not a number raises. *)
Definition convert (s : string) : converted :=
  if Re.is_empty s then NaN
  else match parse_float s with
       | Some q => Float q
       | None => if is_nan_word s then NaN else ValueError
       end.

(** [pd.to_numeric(v, errors="coerce")] on one element. *)
Definition to_numeric_coerce (s : string) : option Q :=
  match convert s with
  | Float q => Some q
  | NaN => None
  | ValueError => None
  end.

End Pandas.

(* ================================================================== *)
(** ** [tidy_weekly_summary] *)

Import Pandas.

Record TidyRecord : Type := mkTidy {
  year : option Z;
  week : option Z;
  channel : option string;
  metric_name : string;
  value : option Q;
  metric : string
}.

Inductive raised : Type :=
| IndexError      (* [df.columns[0]] on a frame without columns *)
| MeltValueError  (* the [ValueError] of [melt] when a column has the
                     name of [value_name] *)
| KeyError.       (* [melt] when the id column is no longer there *)

(** [r"^Unnamed"] *)
Definition UNNAMED : Re.regex := Re.Cat Re.Bos (Re.lit "Unnamed").

(** [re.compile(r"Week\s*(\d{1,2})\s*,\s*(\d{4})", re.IGNORECASE)] *)
Definition pat : Re.regex :=
  Re.Cat (Re.lit_i "Week")
   (Re.Cat (Re.Star Py.isspace)
    (Re.Cat (Re.Grp 1 (Re.Rep Py.isdigit 1 2))
     (Re.Cat (Re.Star Py.isspace)
      (Re.Cat (Re.chr ",")
       (Re.Cat (Re.Star Py.isspace)
               (Re.Grp 2 (Re.Rep Py.isdigit 4 4))))))).

(** [r"[\$,]"] *)
Definition CURRENCY : Re.regex :=
  Re.Cls (fun c => Ascii.eqb c "$" || Ascii.eqb c ",").

(** [r"\(([^)]+)\)"] *)
Definition PARENS : Re.regex :=
  Re.Cat (Re.chr "(")
   (Re.Cat (Re.Grp 1 (Re.plus (fun c => negb (Ascii.eqb c ")"))))
           (Re.chr ")")).

(** [CB|BG|DS|Total] *)
Definition PREFIXES : Re.regex :=
  Re.Alt (Re.lit "CB")
   (Re.Alt (Re.lit "BG") (Re.Alt (Re.lit "DS") (Re.lit "Total"))).

(** [r"^(CB|BG|DS|Total)"] *)
Definition CHANNEL : Re.regex := Re.Cat Re.Bos (Re.Grp 1 PREFIXES).

(** [r"^(CB|BG|DS|Total)\s*"] *)
Definition CHANNEL_STRIP : Re.regex :=
  Re.Cat Re.Bos (Re.Cat (Re.Grp 1 PREFIXES) (Re.Star Py.isspace)).

Definition group_text (n : nat) (o : Re.outcome) : string :=
  let '(_, _, g) := o in
  match Re.group n g with Some t => t | None => EmptyString end.

(** [parse_week_year]: [(np.nan, np.nan)] without a match, else the two
    groups as integers. *)
Definition parse_week_year (lbl : string) : option Z * option Z :=
  match Re.search pat lbl with
  | None => (None, None)
  | Some (_, mo) =>
      (Some (Py.int (group_text 1 mo)), Some (Py.int (group_text 2 mo)))
  end.

(** The texts [v] of lines 99-105, for one cell of [value_raw]. *)
Definition clean_value_text (raw : cell) : string :=
  Py.strip
    (Re.sub PARENS (fun mo => ("-" ++ group_text 1 mo)%string)
       (Re.sub CURRENCY (fun _ => EmptyString) (astype_str raw))).

(** The column [value] for one cell of [value_raw]. *)
Definition parse_value (raw : cell) : option Q :=
  to_numeric_coerce (clean_value_text raw).

(** [m["metric"].str.extract(r"^(CB|BG|DS|Total)", expand=False)] *)
Definition extract_channel (label : string) : option string :=
  match Re.search CHANNEL label with
  | None => None
  | Some (_, mo) => Some (group_text 1 mo)
  end.

(** [m["metric"].str.replace(r"^(CB|BG|DS|Total)\s*", "", regex=True)] *)
Definition strip_channel (label : string) : string :=
  Re.sub CHANNEL_STRIP (fun _ => EmptyString) label.

(** One row of the frame [m] after [melt]: the id value, [week_label]
    and [value_raw]. *)
Definition melted : Type := string * string * cell.

(** [df.melt(id_vars=[first_col], var_name="week_label",
    value_name="value_raw")]: the value columns one after the other, each
    with all the rows. *)
Definition melt (first_col : string) (ids : list string)
    (df : DataFrame) : list melted :=
  flat_map
    (fun col : string * list cell =>
       map (fun p : string * cell => (fst p, fst col, snd p))
           (combine ids (snd col)))
    (filter (fun col => negb (String.eqb (fst col) first_col)) df).

(** Lines 93-95: the columns [week] and [year] of one row of [m]. *)
Definition with_period (t : melted) : melted * (option Z * option Z) :=
  let '(_, week_label, _) := t in (t, parse_week_year week_label).

(** [m.dropna(subset=["week", "year"])] *)
Definition has_period (p : melted * (option Z * option Z)) : bool :=
  notna (fst (snd p)) && notna (snd (snd p)).

(** Lines 99-116: the columns [value], [channel] and [metric_name], and
    the selection of the six columns that are returned. *)
Definition finish (p : melted * (option Z * option Z)) : TidyRecord :=
  let '((label, _, value_raw), (wk, yr)) := p in
  {| year := yr;
     week := wk;
     channel := extract_channel label;
     metric_name := strip_channel label;
     value := parse_value value_raw;
     metric := label |}.

(** [df.columns.astype(str).str.contains(r"^Unnamed", regex=True)] *)
Definition is_unnamed (name : string) : bool :=
  notna (Re.search UNNAMED name).

(** Lines 70-116.  The rows without a label in the first column and the
    columns named [Unnamed...] are dropped, the frame is melted, the
    rows whose header holds no week and year are dropped, and the value,
    the channel and the metric name are added.

    [melt] (pandas 2) first refuses a frame one of whose columns has the
    name of [value_name], and then a frame without its id column.

    The cells are texts, so the first column is a column of texts on
    which [.str] works.  Not considered are the frames whose first
    column is named [week_label], [week], [year] or [value], the names
    of the columns that lines 81-106 write. *)
Definition tidy_weekly_summary (df : DataFrame)
  : raised + list TidyRecord :=
  match df with
  | [] => inl IndexError
  | (first_col, labels) :: _ =>
      (* df.dropna(subset=[first_col]) *)
      let mask := map notna labels in
      let df1 := map (fun col => (fst col, select mask (snd col))) df in
      let ids := somes labels in
      (* drop the columns named Unnamed... *)
      let df2 := filter (fun col => negb (is_unnamed (fst col))) df1 in
      if existsb (fun col => String.eqb (fst col) "value_raw") df2 then
        inl MeltValueError
      else if existsb (fun col => String.eqb (fst col) first_col) df2 then
        inr (map finish
               (filter has_period (map with_period (melt first_col ids df2))))
      else inl KeyError
  end.

(* ================================================================== *)
(** ** [main]: the scope filter and the in-process aggregates *)

(** [len(df)] *)
Definition nrows (df : DataFrame) : nat :=
  match df with
  | [] => 0
  | (_, cells) :: _ => length cells
  end.

(** [df[name] = text], as on line 168: the column is replaced, or added
    as the last one, with the text in every row. *)
Definition assign (name text : string) (df : DataFrame) : DataFrame :=
  let col := (name, repeat (Some text) (nrows df)) in
  if existsb (fun c => String.eqb (fst c) name) df
  then map (fun c => if String.eqb (fst c) name then col else c) df
  else df ++ [col].

Definition CUTOFF_2025_WEEK : Z := 31%Z.

(** Comparisons of a numeric column with a number; NaN compares false. *)
Definition eq_num (a : option Z) (k : Z) : bool :=
  match a with Some x => (x =? k)%Z | None => false end.

Definition le_num (a : option Z) (k : Z) : bool :=
  match a with Some x => (x <=? k)%Z | None => false end.

(** The row mask of lines 177-180. *)
Definition in_scope (r : TidyRecord) : bool :=
  eq_num (year r) 2024
  || (eq_num (year r) 2025 && le_num (week r) CUTOFF_2025_WEEK).

Definition apply_scope (clean : list TidyRecord) : list TidyRecord :=
  filter in_scope clean.

(** [clean], as [main] has it from line 180 on. *)
Definition main_clean (raw : DataFrame) : raised + list TidyRecord :=
  match tidy_weekly_summary raw with
  | inl e => inl e
  | inr clean => inr (apply_scope clean)
  end.

(** A key put in its place among ascending keys, unless it is there. *)
Fixpoint insert_key {K} (cmp : K -> K -> comparison) (k : K) (l : list K)
  : list K :=
  match l with
  | [] => [k]
  | x :: l' =>
      match cmp k x with
      | Lt => k :: l
      | Eq => l
      | Gt => x :: insert_key cmp k l'
      end
  end.

(** The group keys in ascending order, each once. *)
Definition sort_keys {K} (cmp : K -> K -> comparison) (l : list K) : list K :=
  fold_right (insert_key cmp) [] l.

Definition is_eq (c : comparison) : bool :=
  match c with Eq => true | _ => false end.

Definition cmp_pair {A B} (ca : A -> A -> comparison)
    (cb : B -> B -> comparison) (x y : A * B) : comparison :=
  match ca (fst x) (fst y) with
  | Eq => cb (snd x) (snd y)
  | c => c
  end.

(** [.sum()]: a float sum that skips NaN; the sum of nothing is [0.0]. *)
Definition nansum (vs : list (option Q)) : Q :=
  fold_left (fun acc q => Qred (acc + q)) (somes vs) 0%Q.

(** [rows.groupby(key)["value"].agg()]: the keys in ascending order, rows
    with a NaN key left out, one aggregate per key. *)
Definition groupby {K V} (cmp : K -> K -> comparison)
    (key : TidyRecord -> option K) (agg : list (option Q) -> V)
    (rows : list TidyRecord) : list (K * V) :=
  map (fun k =>
         (k, agg (map value
                (filter (fun r => match key r with
                                  | Some k' => is_eq (cmp k' k)
                                  | None => false
                                  end) rows))))
      (sort_keys cmp (somes (map key rows))).

(** Lines 201-206; the dict as its list of items. *)
Definition revenue (clean : list TidyRecord) : list (Z * Q) :=
  groupby Z.compare year nansum
    (filter (fun r => String.eqb (Py.lower (metric_name r)) "revenue") clean).

(** Lines 207-212. *)
Definition total_net (clean : list TidyRecord) : list (Z * Q) :=
  groupby Z.compare year nansum
    (filter (fun r => String.eqb (Py.lower (metric r)) "total net income")
            clean).

Definition year_week (r : TidyRecord) : option (Z * Z) :=
  match year r, week r with
  | Some y, Some w => Some (y, w)
  | _, _ => None
  end.

(** The frame [grp] of [plot_weekly_total_metric], lines 120-125 (and of
    [plot_by_year], line 145): the weekly totals of one metric, ascending
    by year and week. *)
Definition weekly_totals (clean : list TidyRecord) (name : string)
  : list (Z * Z * Q) :=
  groupby (cmp_pair Z.compare Z.compare) year_week nansum
    (filter (fun r => String.eqb (Py.lower (metric_name r)) (Py.lower name))
            clean).

(** *** Ingestion, lines 163-171 *)

(** The column names of all frames, each once, in the order in which
    they first appear. *)
Fixpoint first_seen (seen : list string) (names : list string)
  : list string :=
  match names with
  | [] => []
  | n :: names' =>
      if existsb (String.eqb n) seen then first_seen seen names'
      else n :: first_seen (n :: seen) names'
  end.

(** [df[name]] for the rows of one frame in a concatenation: the cells of
    the column, or NaN in every row when the frame has no such column. *)
Definition column_of (name : string) (df : DataFrame) : list cell :=
  match find (fun col => String.eqb (fst col) name) df with
  | Some col => snd col
  | None => repeat None (nrows df)
  end.

(** The frames one on top of the other: the union of the columns, the
    rows of the frames one after the other. *)
Definition stacked (frames : list DataFrame) : DataFrame :=
  map (fun name => (name, flat_map (column_of name) frames))
      (first_seen [] (flat_map (map fst) frames)).

(** [pd.concat(frames, ignore_index=True)]; [None] is its [ValueError]
    when there is no frame to concatenate. *)
Definition concat (frames : list DataFrame) : option DataFrame :=
  match frames with
  | [] => None
  | _ :: _ => Some (stacked frames)
  end.

(** [raw], line 171, from the files as [(basename, frame read)], in the
    order of [list_csvs].  Without a file [main] raises as well, in
    [list_csvs] and before [pd.concat]. *)
Definition main_raw (files : list (string * DataFrame))
  : option DataFrame :=
  concat (map (fun f => assign "source_file" (fst f) (snd f)) files).

(** *** The counts of weeks, lines 192-199 *)

Definition eqb_num (a b : option Z) : bool :=
  match a, b with
  | Some x, Some y => (x =? y)%Z
  | None, None => true
  | _, _ => false
  end.

Definition eqb_period (a b : option Z * option Z) : bool :=
  eqb_num (fst a) (fst b) && eqb_num (snd a) (snd b).

(** [frame.drop_duplicates()]: of equal rows the first one stays. *)
Fixpoint drop_duplicates {A} (eqb : A -> A -> bool) (l : list A) : list A :=
  match l with
  | [] => []
  | x :: l' => x :: filter (fun y => negb (eqb x y)) (drop_duplicates eqb l')
  end.

(** [clean[["year", "week"]].drop_duplicates()] *)
Definition distinct_periods (clean : list TidyRecord)
  : list (option Z * option Z) :=
  drop_duplicates eqb_period (map (fun r => (year r, week r)) clean).

(** Line 192. *)
Definition weeks_total (clean : list TidyRecord) : nat :=
  length (distinct_periods clean).

(** Lines 193-199: [.groupby("year").size().to_dict()], the dict as its
    list of items. *)
Definition weeks_by_year (clean : list TidyRecord) : list (Z * nat) :=
  let rows := distinct_periods clean in
  map (fun y => (y, length (filter (fun p => eq_num (fst p) y) rows)))
      (sort_keys Z.compare (somes (map fst rows))).

(* ================================================================== *)
(** ** The queries of [main], lines 219-254, on the table that
       [clean.to_sql] writes (NaN is stored as NULL)

    The comparison [=] on texts is the one of the column's collation and
    is a parameter [eqv].  Rows that tie under [ORDER BY], and the rows of
    a query without [ORDER BY], come in an order that SQL leaves open. *)

Module Sql.

Definition cmp_null {A} (cmp : A -> A -> comparison) (x y : option A)
  : comparison :=
  match x, y with
  | None, None => Eq
  | None, Some _ => Lt
  | Some _, None => Gt
  | Some a, Some b => cmp a b
  end.

(** [SUM(value)] over the rows of a group: the sum is NULL until a row
    has a number; a NULL leaves it as it is and a number is added to
    it. *)
Definition SUM (vs : list (option Q)) : option Q :=
  fold_left (fun acc v =>
               match acc, v with
               | _, None => acc
               | None, Some q => Some (Qred q)
               | Some a, Some q => Some (Qred (a + q))
               end)
            vs None.

(** [SELECT key, agg(value) ... GROUP BY key ORDER BY key] *)
Definition group_by {K} (cmp : K -> K -> comparison)
    (key : TidyRecord -> K) (agg : list (option Q) -> option Q)
    (rows : list TidyRecord) : list (K * option Q) :=
  map (fun k =>
         (k, agg (map value (filter (fun r => is_eq (cmp (key r) k)) rows))))
      (sort_keys cmp (map key rows)).

Section Queries.

Variable eqv : string -> string -> bool.

Definition where_metric_name (name : string) (t : list TidyRecord) :=
  filter (fun r => eqv (metric_name r) name) t.

Definition total_revenue_per_year (t : list TidyRecord)
  : list (option Z * option Q) :=
  group_by (cmp_null Z.compare) year SUM (where_metric_name "Revenue" t).

Definition total_net_income_per_year (t : list TidyRecord)
  : list (option Z * option Q) :=
  group_by (cmp_null Z.compare) year SUM
           (where_metric_name "Net Income" t).

Definition weekly_revenue (t : list TidyRecord)
  : list ((option Z * option Z) * option Q) :=
  group_by (cmp_pair (cmp_null Z.compare) (cmp_null Z.compare))
           (fun r => (year r, week r)) SUM
           (where_metric_name "Revenue" t).

(** [a] may stand before [b] under [ORDER BY value DESC]; NULL is the
    lowest value. *)
Definition desc_before (a b : option Q) : bool :=
  match a, b with
  | _, None => true
  | None, Some _ => false
  | Some x, Some y => Qle_bool y x
  end.

Definition may_be_first (rows : list TidyRecord) (r : TidyRecord) : bool :=
  forallb (fun r' => desc_before (value r) (value r')) rows.

(** [most_profitable_week]: [ORDER BY value DESC LIMIT 1] gives one of
    the rows that no other row must precede; the query returns its
    year, week and value. *)
Definition most_profitable_week (t : list TidyRecord)
    (out : option Z * option Z * option Q) : Prop :=
  exists r, In r (where_metric_name "Net Income" t)
            /\ may_be_first (where_metric_name "Net Income" t) r = true
            /\ out = (year r, week r, value r).

End Queries.

(** The comparison of a case-insensitive collation. *)
Definition collate_ci (a b : string) : bool :=
  String.eqb (Py.lower a) (Py.lower b).

End Sql.

(* ================================================================== *)
(** ** Vocabulary of the statements *)

(** The texts that the week pattern matches: [Week] in any case, white
    space, a week [d] of one or two digits, white space, a comma, white
    space, a year [y] of four digits. *)
Definition week_year_text (t d y : string) : Prop :=
  exists k w1 w2 w3,
    t = (k ++ w1 ++ d ++ w2 ++ "," ++ w3 ++ y)%string
    /\ Py.lower k = "week"
    /\ Py.all Py.isspace w1 = true
    /\ Py.all Py.isdigit d = true /\ 1 <= String.length d <= 2
    /\ Py.all Py.isspace w2 = true
    /\ Py.all Py.isspace w3 = true
    /\ Py.all Py.isdigit y = true /\ String.length y = 4.

(** The header [lbl] holds such a text right after [pre]. *)
Definition occurs (lbl pre d y : string) : Prop :=
  exists t post, lbl = (pre ++ t ++ post)%string /\ week_year_text t d y.

(** The first character of a text, if any, is outside a class. *)
Definition head_not (p : ascii -> bool) (x : string) : Prop :=
  match x with
  | String c _ => p c = false
  | EmptyString => True
  end.

(** The channel prefixes, in the order of the pattern. *)
Definition CHANNELS : list string := ["CB"; "BG"; "DS"; "Total"].
(** The frame of the end-to-end example: two rows under two week
    headers; the first column is named [Metric]. *)
Definition example_frame : DataFrame :=
  [("Metric", [Some "CB Revenue"; Some "Total Net Income"]);
   ("Week 1, 2024", [Some "$100"; Some "$50"]);
   ("Week 2, 2024", [Some "$200"; Some "(10)"])].

(** The tidy records that the script makes of it. *)
Definition example_tidy : list TidyRecord :=
  [mkTidy (Some 2024%Z) (Some 1%Z) (Some "CB") "Revenue" (Some 100%Q)
          "CB Revenue";
   mkTidy (Some 2024%Z) (Some 1%Z) (Some "Total") "Net Income" (Some 50%Q)
          "Total Net Income";
   mkTidy (Some 2024%Z) (Some 2%Z) (Some "CB") "Revenue" (Some 200%Q)
          "CB Revenue";
   mkTidy (Some 2024%Z) (Some 2%Z) (Some "Total") "Net Income"
          (Some (-10)%Q) "Total Net Income"].

(** Two weeks with the same net income. *)
Definition tied_weeks : list TidyRecord :=
  [mkTidy (Some 2024%Z) (Some 1%Z) (Some "Total") "Net Income" (Some 50%Q)
          "Total Net Income";
   mkTidy (Some 2024%Z) (Some 2%Z) (Some "Total") "Net Income" (Some 50%Q)
          "Total Net Income"].

(** A revenue row whose cell was no number. *)
Definition undefined_revenue : list TidyRecord :=
  [mkTidy (Some 2024%Z) (Some 1%Z) (Some "CB") "Revenue" None "CB Revenue"].

(** Every record has a year and a week. *)
Definition periods_defined (t : list TidyRecord) : bool :=
  forallb (fun r => notna (year r) && notna (week r)) t.

(** A NULL aggregate read as [0.0]. *)
Definition null_as_zero (v : option Q) : Q :=
  match v with Some q => q | None => 0%Q end.

(** *** Numbers that float64 holds as they are *)

(** A value is a whole number, or missing. *)
Definition whole (v : option Q) : bool :=
  match v with
  | Some q => Pos.eqb (Qden q) 1
  | None => true
  end.

(** The magnitude of a value; a missing value has none. *)
Definition magnitude (v : option Q) : Z :=
  match v with
  | Some q => Z.abs (Qnum q)
  | None => 0%Z
  end.

(** Every value is a whole number and the magnitudes of all values
    together stay within [2^53]: every sum of such values is a float64
    without rounding, in whatever order the values are added. *)
Definition exact_sums (t : list TidyRecord) : bool :=
  forallb (fun r => whole (value r)) t
  && (fold_right (fun r acc => magnitude (value r) + acc)%Z 0%Z t
      <=? 2 ^ 53)%Z.

(** Every value is a whole number of a magnitude within [2^53], which
    int64 and float64 both hold as it is, so that the value of a cell
    does not depend on the other cells of its column. *)
Definition exact_amounts (t : list TidyRecord) : bool :=
  forallb (fun r => whole (value r)
                    && (magnitude (value r) <=? 2 ^ 53)%Z) t.

(** A capitalised label as a file may hold it, and its record. *)
Definition capital_revenue : list TidyRecord :=
  [mkTidy (Some 2024%Z) (Some 1%Z) None "REVENUE" (Some 100%Q) "REVENUE"].

(** The number that a text of decimal digits denotes: every digit with
    the weight of its place. *)
Definition digit_of (c : ascii) : Z :=
  match index 0 (String c EmptyString) "0123456789" with
  | Some n => Z.of_nat n
  | None => 0%Z
  end.

Fixpoint decimal (s : string) : Z :=
  match s with
  | EmptyString => 0%Z
  | String c t => (digit_of c * 10 ^ Z.of_nat (String.length t) + decimal t)%Z
  end.

(** A column of the frame has the name that [melt] gives to its column of
    values. *)
Definition has_value_raw (df : DataFrame) : bool :=
  existsb (fun col => String.eqb (fst col) "value_raw") df.

(** *** The extremum, which the script computes by query only

    The script has no in-process extremum; the definition below follows
    the words of the spec (section 4.6) and selects the metric as the
    in-process code does, by the lower-cased name. *)

(** [a] stands before [b] in the order of year and week. *)
Definition earlier (a b : TidyRecord) : bool :=
  match cmp_pair (Sql.cmp_null Z.compare) (Sql.cmp_null Z.compare)
                 (year a, week a) (year b, week b) with
  | Lt => true
  | _ => false
  end.

(** [r] is to replace [best]: its value is greater, or equal and [r] is
    the earlier record. *)
Definition improves (best r : TidyRecord) : bool :=
  match value best, value r with
  | Some b, Some v =>
      negb (Qle_bool v b) || (Qeq_bool v b && earlier r best)
  | _, _ => false
  end.

(** One step of the search for the maximum. *)
Definition step_max (best : option TidyRecord) (r : TidyRecord)
  : option TidyRecord :=
  match best with
  | None => Some r
  | Some b => if improves b r then Some r else Some b
  end.

(** From the spec: extremum for the maximum, the single record with the
    greatest defined value, the earliest one by year and week among
    those that tie, and the first stored among those. *)
Definition spec_extremum_max (name : string) (t : list TidyRecord)
  : option TidyRecord :=
  fold_left step_max
    (filter (fun r => String.eqb (Py.lower (metric_name r)) (Py.lower name)
                      && notna (value r)) t)
    None.

(** *** Vocabulary of the further properties *)

(** A text without its [$] and [,]. *)
Fixpoint without_currency (s : string) : string :=
  match s with
  | EmptyString => EmptyString
  | String c t =>
      if Ascii.eqb c "$" || Ascii.eqb c ","
      then without_currency t
      else String c (without_currency t)
  end.

(** The columns that give records: not named [Unnamed...], not the label
    column, and with a header that holds a week and a year. *)
Definition is_period_column (first_col : string) (col : string * list cell)
  : bool :=
  negb (is_unnamed (fst col)) && negb (String.eqb (fst col) first_col)
  && notna (fst (parse_week_year (fst col)))
  && notna (snd (parse_week_year (fst col))).

(** The record of one labelled cell under one header. *)
Definition record_of (header : string) (p : string * cell) : TidyRecord :=
  {| year := snd (parse_week_year header);
     week := fst (parse_week_year header);
     channel := extract_channel (fst p);
     metric_name := strip_channel (fst p);
     value := parse_value (snd p);
     metric := fst p |}.

(** Every column has one cell per row. *)
Definition rectangular (df : DataFrame) : bool :=
  forallb (fun col => length (snd col) =? nrows df) df.

(** The sum of the counts of a dict. *)
Definition total_count {K} (d : list (K * nat)) : nat :=
  fold_right (fun kv acc => snd kv + acc) 0 d.

(** The number of rows that have a label. *)
Definition labelled_rows (df : DataFrame) : nat :=
  match df with
  | [] => 0
  | (_, labels) :: _ => length (somes labels)
  end.

(** The period columns of a frame. *)
Definition period_columns (df : DataFrame) : list (string * list cell) :=
  match df with
  | [] => []
  | (first_col, _) :: _ => filter (is_period_column first_col) df
  end.

(** The labelled cells of one column: the label and the cell of every row
    that has a label. *)
Definition labelled_cells (df : DataFrame) (col : string * list cell)
  : list (string * cell) :=
  match df with
  | [] => []
  | (_, labels) :: _ =>
      combine (somes labels) (select (map notna labels) (snd col))
  end.

(** Classes of single characters. *)
Definition not_open (c : ascii) : bool := negb (Ascii.eqb c "(").
Definition not_close (c : ascii) : bool := negb (Ascii.eqb c ")").
Definition not_space (c : ascii) : bool := negb (Py.isspace c).

(** Strictly ascending numbers. *)
Fixpoint ascending (l : list Z) : bool :=
  match l with
  | x :: (y :: _) as t => (x <? y)%Z && ascending t
  | _ => true
  end.

(** A period before another one: the earlier year, or the earlier week of
    the same year. *)
Definition before (a b : Z * Z) : bool :=
  (fst a <? fst b)%Z || ((fst a =? fst b)%Z && (snd a <? snd b)%Z).

(** Periods in strictly ascending order of year and week. *)
Fixpoint chronological (l : list (Z * Z)) : bool :=
  match l with
  | x :: (y :: _) as t => before x y && chronological t
  | _ => true
  end.

(* ================================================================== *)
(** * Properties *)

(** ** Texts *)

Module StrFacts.

Lemma app_assoc (a b c : string) :
  ((a ++ b) ++ c = a ++ (b ++ c))%string.
Proof. induction a as [|x a IH]; simpl; [reflexivity|now rewrite IH]. Qed.

Lemma app_nil_r (a : string) : (a ++ EmptyString)%string = a.
Proof. induction a as [|x a IH]; simpl; [reflexivity|now rewrite IH]. Qed.

Lemma app_inv_head (a b c : string) :
  (a ++ b = a ++ c)%string -> b = c.
Proof.
  induction a as [|x a IH]; simpl; intros H; [exact H|].
  inversion H. auto.
Qed.

(** Two splits of one text whose first parts have the same length. *)
Lemma app_eq_length (a b a' b' : string) :
  (a ++ b = a' ++ b')%string -> String.length a = String.length a' ->
  a = a' /\ b = b'.
Proof.
  revert a'. induction a as [|x a IH]; intros [|x' a'] E L;
    simpl in *; try discriminate.
  - auto.
  - inversion E; subst. destruct (IH a' H1) as [-> ->]; [lia|auto].
Qed.

End StrFacts.

(** ** The matcher against the meaning of patterns *)

Module ReFacts.
Import Re.

Lemma in_cons_matched c o l :
  In o (map (cons_matched c) l) <->
  exists m rest g, o = (String c m, rest, g) /\ In (m, rest, g) l.
Proof.
  rewrite in_map_iff. split.
  - intros [[[m rest] g] [E H]]. exists m, rest, g. now subst.
  - intros (m & rest & g & E & H). exists (m, rest, g). now subst.
Qed.

Lemma run_star_spec p s m rest g :
  In (m, rest, g) (run_star p s) <->
  s = (m ++ rest)%string /\ Py.all p m = true /\ g = [].
Proof.
  revert m rest g. induction s as [|c t IH]; intros m rest g; simpl.
  - split.
    + intros [E|[]]. inversion E; subst. auto.
    + intros (E & A & G). left. destruct m; simpl in E; [|discriminate].
      now subst.
  - destruct (p c) eqn:Pc.
    + rewrite in_app_iff, in_cons_matched. split.
      * intros [(m' & r' & g' & E & H)|[E|[]]].
        -- inversion E; subst. apply IH in H. destruct H as (-> & A & ->).
           simpl. rewrite Pc, A. auto.
        -- inversion E; subst. auto.
      * intros (E & A & ->). destruct m as [|c' m'].
        -- simpl in E. subst. right. now left.
        -- simpl in E. inversion E; subst. simpl in A.
           apply andb_prop in A. destruct A as [_ A].
           left. exists m', rest, []. split; [reflexivity|].
           apply IH. auto.
    + split.
      * intros [E|[]]. inversion E; subst. auto.
      * intros (E & A & ->). destruct m as [|c' m'].
        -- simpl in E. subst. now left.
        -- simpl in E. inversion E; subst. simpl in A.
           rewrite Pc in A. discriminate.
Qed.

Lemma run_rep_spec p lo hi s m rest g :
  In (m, rest, g) (run_rep p lo hi s) <->
  s = (m ++ rest)%string /\ Py.all p m = true
  /\ lo <= String.length m <= hi /\ g = [].
Proof.
  revert lo s m rest g.
  induction hi as [|hi IH]; intros lo s m rest g.
  - simpl. destruct lo; simpl.
    + split.
      * intros [E|[]]. inversion E; subst. simpl. repeat split; lia.
      * intros (E & A & L & ->). destruct m; simpl in *; [|lia].
        subst. now left.
    + split; [tauto|]. intros (_ & _ & L & _). lia.
  - assert (Stop : forall s0,
      In (m, rest, g)
         (match lo with 0 => [(EmptyString, s0, [])] | S _ => [] end) <->
      s0 = rest /\ m = EmptyString /\ lo = 0 /\ g = []).
    { intros s0. destruct lo; simpl.
      - split.
        + intros [E|[]]. inversion E; subst. auto.
        + intros (-> & -> & _ & ->). now left.
      - split; [tauto|]. intros (_ & _ & L & _). discriminate. }
    assert (Nil : s = (m ++ rest)%string /\ m = EmptyString ->
                  s = rest).
    { intros [E ->]. exact E. }
    simpl. destruct s as [|c t].
    + rewrite Stop. split.
      * intros (<- & -> & -> & ->). simpl. repeat split; lia.
      * intros (E & A & L & ->). destruct m; simpl in E; [|discriminate].
        subst. simpl in L. repeat split; lia.
    + destruct (p c) eqn:Pc.
      * rewrite in_app_iff, in_cons_matched, Stop. split.
        -- intros [(m' & r' & g' & E & H)|(<- & -> & -> & ->)].
           ++ inversion E; subst. apply IH in H.
              destruct H as (-> & A & L & ->). simpl. rewrite Pc, A.
              repeat split; lia.
           ++ simpl. repeat split; lia.
        -- intros (E & A & L & ->). destruct m as [|c' m'].
           ++ simpl in E. subst. right. simpl in L. repeat split; lia.
           ++ simpl in E. inversion E; subst. simpl in A, L.
              apply andb_prop in A. destruct A as [_ A].
              left. exists m', rest, []. split; [reflexivity|].
              apply IH. repeat split; auto; lia.
      * rewrite Stop. split.
        -- intros (<- & -> & -> & ->). simpl. repeat split; lia.
        -- intros (E & A & L & ->). destruct m as [|c' m'].
           ++ simpl in E. subst. simpl in L. repeat split; lia.
           ++ simpl in E. inversion E; subst. simpl in A.
              rewrite Pc in A. discriminate.
Qed.

(** The matcher lists exactly the matches that the pattern has at the
    head of the subject. *)
Theorem run_spec r : forall bos s m rest g,
  In (m, rest, g) (run r bos s) <->
  s = (m ++ rest)%string /\ den r bos m g.
Proof.
  induction r as [|p|r1 IH1 r2 IH2|r1 IH1 r2 IH2|p|p lo hi|n r1 IH1|];
    intros bos s m rest g; simpl.
  - split.
    + intros [E|[]]. inversion E; subst. auto.
    + intros (E & -> & ->). simpl in E. subst. now left.
  - destruct s as [|c t].
    + split; [intros []|]. intros (E & c & -> & _). discriminate.
    + destruct (p c) eqn:Pc.
      * split.
        -- intros [E|[]]. inversion E; subst. split; [reflexivity|].
           exists c. auto.
        -- intros (E & c' & -> & Pc' & ->). simpl in E.
           inversion E; subst. now left.
      * split; [intros []|]. intros (E & c' & -> & Pc' & ->). simpl in E.
        inversion E; subst. congruence.
  - rewrite in_flat_map. split.
    + intros ([[m1 s1] g1] & H1 & H2). apply IH1 in H1.
      destruct H1 as (-> & D1). apply in_map_iff in H2.
      destruct H2 as ([[m2 s2] g2] & E & H2). inversion E; subst.
      apply IH2 in H2. destruct H2 as (-> & D2). split.
      * now rewrite StrFacts.app_assoc.
      * exists m1, m2, g1, g2. auto.
    + intros (-> & m1 & m2 & g1 & g2 & -> & -> & D1 & D2).
      exists (m1, (m2 ++ rest)%string, g1). split.
      * apply IH1. split; [|assumption].
        now rewrite StrFacts.app_assoc.
      * apply in_map_iff. exists (m2, rest, g2). split; [reflexivity|].
        apply IH2. auto.
  - rewrite in_app_iff, IH1, IH2. tauto.
  - apply run_star_spec.
  - apply run_rep_spec.
  - rewrite in_map_iff. split.
    + intros ([[m1 s1] g1] & E & H). inversion E; subst.
      apply IH1 in H. destruct H as (-> & D). split; [reflexivity|].
      exists g1. auto.
    + intros (-> & g1 & D & ->). exists (m, rest, g1).
      split; [reflexivity|]. apply IH1. auto.
  - destruct bos.
    + split.
      * intros [E|[]]. inversion E; subst. auto.
      * intros (E & _ & -> & ->). simpl in E. subst. now left.
    + split; [intros []|]. intros (_ & F & _). discriminate.
Qed.

End ReFacts.

(** ** Searching *)

Module SearchFacts.
Import Re ReFacts.

Lemma search_from_none r : forall s bos pre,
  search_from r bos pre s = None ->
  forall a b, s = (a ++ b)%string -> run r (bos && is_empty a) b = [].
Proof.
  induction s as [|c t IH]; intros bos pre H a b E; simpl in H;
    unfold match_here in H.
  - destruct a; simpl in E; [|discriminate]. subst b.
    rewrite andb_true_r. destruct (run r bos EmptyString); [reflexivity|].
    discriminate.
  - destruct (run r bos (String c t)) eqn:R; simpl in H; [|discriminate].
    destruct a as [|x a]; simpl in E.
    + subst b. now rewrite andb_true_r.
    + inversion E; subst. simpl. rewrite andb_false_r.
      apply (IH _ _ H a b eq_refl).
Qed.

Lemma search_from_some r : forall s bos pre pre' o,
  search_from r bos pre s = Some (pre', o) ->
  exists a b, s = (a ++ b)%string /\ pre' = (pre ++ a)%string
    /\ hd_error (run r (bos && is_empty a) b) = Some o
    /\ forall a' b', s = (a' ++ b')%string ->
         String.length a' < String.length a ->
         run r (bos && is_empty a') b' = [].
Proof.
  induction s as [|c t IH]; intros bos pre pre' o H; simpl in H;
    unfold match_here in H.
  - destruct (hd_error (run r bos EmptyString)) eqn:R; [|discriminate].
    inversion H; subst. exists EmptyString, EmptyString.
    rewrite andb_true_r.
    split; [reflexivity|]. split; [now rewrite StrFacts.app_nil_r|].
    split; [exact R|].
    intros a' b' _ L; simpl in L; lia.
  - destruct (hd_error (run r bos (String c t))) eqn:R.
    + inversion H; subst. exists EmptyString, (String c t).
      rewrite andb_true_r.
      split; [reflexivity|]. split; [now rewrite StrFacts.app_nil_r|].
      split; [exact R|].
      intros a' b' _ L; simpl in L; lia.
    + apply IH in H. destruct H as (a & b & -> & -> & Hd & Min).
      exists (String c a), b. simpl. rewrite andb_false_r.
      rewrite StrFacts.app_assoc.
      split; [reflexivity|]. split; [reflexivity|]. split; [exact Hd|].
      intros a' b' E L. destruct a' as [|x a']; simpl in E.
      * subst b'. rewrite andb_true_r.
        destruct (run r bos (String c (a ++ b))); [reflexivity|discriminate].
      * inversion E; subst. simpl. rewrite andb_false_r.
        specialize (Min a' b' H1). simpl in Min. apply Min. simpl in L. lia.
Qed.

End SearchFacts.

(** ** The week pattern *)

Module PatFacts.
Import Re ReFacts SearchFacts.

Lemma den_chr_i c bos m g :
  den (chr_i c) bos m g <->
  exists x, m = String x EmptyString
            /\ Py.lower_char x = Py.lower_char c /\ g = [].
Proof.
  unfold chr_i; simpl. split; intros (x & -> & H & ->); exists x;
    (split; [reflexivity|split; [|reflexivity]]).
  - now apply Ascii.eqb_eq.
  - now apply Ascii.eqb_eq.
Qed.

Lemma den_lit_i w : w <> EmptyString -> forall bos m g,
  den (lit_i w) bos m g <-> Py.lower m = Py.lower w /\ g = [].
Proof.
  induction w as [|c t IH]; intros NE bos m g; [congruence|].
  destruct t as [|c' t'].
  - change (lit_i (String c EmptyString)) with (chr_i c).
    rewrite den_chr_i. simpl. split.
    + intros (x & -> & H & ->). simpl. now rewrite H.
    + intros [H ->]. destruct m as [|x [|]]; simpl in H; try discriminate.
      inversion H. exists x. auto.
  - change (lit_i (String c (String c' t')))
      with (Cat (chr_i c) (lit_i (String c' t'))).
    cbn [den]. split.
    + intros (m1 & m2 & g1 & g2 & -> & -> & D1 & D2).
      apply den_chr_i in D1. destruct D1 as (x & -> & H & ->).
      apply IH in D2; [|discriminate]. destruct D2 as [H2 ->].
      simpl. simpl in H2. now rewrite H, H2.
    + intros [H ->]. destruct m as [|x m']; simpl in H; [discriminate|].
      inversion H. exists (String x EmptyString), m', [], [].
      split; [reflexivity|]. split; [reflexivity|]. split.
      * apply den_chr_i. exists x. auto.
      * apply IH; [discriminate|]. auto.
Qed.

Lemma den_pat bos m g :
  den pat bos m g <->
  exists d y, week_year_text m d y /\ g = [(1, d); (2, y)].
Proof.
  unfold pat. cbn [den]. split.
  - intros (k & m2 & g1 & g2 & -> & -> & Dk & D).
    apply den_lit_i in Dk; [|discriminate]. destruct Dk as [Hk ->].
    destruct D as (w1 & m3 & g1 & g3 & -> & -> & [W1 ->] & D).
    destruct D as (d & m4 & g1 & g4 & -> & -> & (g1' & (Dd & Ld & ->) & ->) & D).
    destruct D as (w2 & m5 & g1 & g5 & -> & -> & [W2 ->] & D).
    destruct D as (cm & m6 & g1 & g6 & -> & -> & (x & -> & Hx & ->) & D).
    destruct D as (w3 & y & g1 & g7 & -> & -> & [W3 ->] & D).
    destruct D as (g1 & (Dy & Ly & ->) & ->).
    apply Ascii.eqb_eq in Hx. subst x.
    exists d, y. split; [|reflexivity].
    exists k, w1, w2, w3. simpl. repeat split; auto; lia.
  - intros (d & y & (k & w1 & w2 & w3 & -> & Hk & W1 & Dd & Ld & W2 & W3 & Dy & Ly) & ->).
    exists k, (w1 ++ d ++ w2 ++ "," ++ w3 ++ y)%string, [], [(1, d); (2, y)].
    split; [reflexivity|]. split; [reflexivity|]. split.
    { apply den_lit_i; [discriminate|]. auto. }
    exists w1, (d ++ w2 ++ "," ++ w3 ++ y)%string, [], [(1, d); (2, y)].
    split; [reflexivity|]. split; [reflexivity|]. split; [auto|].
    exists d, (w2 ++ "," ++ w3 ++ y)%string, [(1, d)], [(2, y)].
    split; [reflexivity|]. split; [reflexivity|]. split.
    { exists []. auto. }
    exists w2, ("," ++ w3 ++ y)%string, [], [(2, y)].
    split; [reflexivity|]. split; [reflexivity|]. split; [auto|].
    exists ",", (w3 ++ y)%string, [], [(2, y)].
    split; [reflexivity|]. split; [reflexivity|]. split.
    { exists ","%char. auto. }
    exists w3, y, [], [(2, y)].
    split; [reflexivity|]. split; [reflexivity|]. split; [auto|].
    exists []. split; [|reflexivity]. split; [assumption|]. split; [lia|reflexivity].
Qed.

(** The outcomes of the week pattern at one position. *)
Lemma run_pat_spec bos s m rest g :
  In (m, rest, g) (run pat bos s) <->
  s = (m ++ rest)%string
  /\ exists d y, week_year_text m d y /\ g = [(1, d); (2, y)].
Proof. now rewrite run_spec, den_pat. Qed.

End PatFacts.

(** ** Week and year of a header *)

Module WeekFacts.
Import Re ReFacts SearchFacts PatFacts.

Lemma digit_not_space c : Py.isdigit c = true -> Py.isspace c = false.
Proof.
  unfold Py.isdigit, Py.isspace. intros H.
  apply andb_prop in H. destruct H as [H1 H2].
  apply Nat.leb_le in H1. apply Nat.leb_le in H2.
  repeat match goal with
         | |- context [?a <=? ?b] => destruct (Nat.leb_spec a b)
         | |- context [?a =? ?b] => destruct (Nat.eqb_spec a b)
         end; simpl; try reflexivity; lia.
Qed.

Lemma space_not_digit c : Py.isspace c = true -> Py.isdigit c = false.
Proof.
  intros H. destruct (Py.isdigit c) eqn:D; [|reflexivity].
  apply digit_not_space in D. congruence.
Qed.

Lemma digit_val_range c :
  Py.isdigit c = true -> (0 <= Py.digit_val c <= 9)%Z.
Proof.
  unfold Py.isdigit, Py.digit_val. intros H.
  apply andb_prop in H. destruct H as [H1 H2].
  apply Nat.leb_le in H1. apply Nat.leb_le in H2. lia.
Qed.

Lemma length_lower s : String.length (Py.lower s) = String.length s.
Proof. induction s; simpl; auto. Qed.

Lemma run_unique p : forall a a' x x',
  Py.all p a = true -> Py.all p a' = true ->
  head_not p x -> head_not p x' ->
  (a ++ x = a' ++ x')%string -> a = a' /\ x = x'.
Proof.
  induction a as [|c a IH]; intros [|c' a'] x x' A A' Hx Hx' E;
    simpl in *.
  - auto.
  - subst x. simpl in Hx. apply andb_prop in A'. destruct A'. congruence.
  - subst x'. simpl in Hx'. apply andb_prop in A. destruct A. congruence.
  - inversion E; subst. apply andb_prop in A. apply andb_prop in A'.
    destruct A as [_ A], A' as [_ A'].
    destruct (IH a' x x' A A' Hx Hx' H1) as [-> ->]. auto.
Qed.

Lemma head_not_digits p d x :
  (forall c, Py.isdigit c = true -> p c = false) ->
  Py.all Py.isdigit d = true -> 1 <= String.length d ->
  head_not p (d ++ x).
Proof.
  intros P. destruct d as [|c d]; simpl; [lia|]. intros H _.
  apply andb_prop in H. destruct H as [H _]. auto.
Qed.

Lemma head_not_spaces w x :
  Py.all Py.isspace w = true -> head_not Py.isdigit x ->
  head_not Py.isdigit (w ++ x).
Proof.
  destruct w as [|c w]; simpl; [auto|]. intros H _.
  apply andb_prop in H. destruct H as [H _]. now apply space_not_digit.
Qed.

(** At one position the header holds at most one week and year. *)
Lemma occurs_unique lbl pre d y d' y' :
  occurs lbl pre d y -> occurs lbl pre d' y' -> d = d' /\ y = y'.
Proof.
  intros (t & post & E & k & w1 & w2 & w3 & -> & K & W1 & D & L & W2 & W3 & Y & LY)
         (t' & post' & E' & k' & v1 & v2 & v3 & -> & K' & V1 & D' & L' & V2 & V3 & Y' & LY').
  rewrite E in E'. apply StrFacts.app_inv_head in E'.
  rewrite !StrFacts.app_assoc in E'.
  apply StrFacts.app_eq_length in E'.
  2:{ rewrite <- (length_lower k), <- (length_lower k'), K, K'.
      reflexivity. }
  destruct E' as [_ E'].
  apply (run_unique Py.isspace) in E'; auto.
  2,3: apply head_not_digits; auto using digit_not_space; lia.
  destruct E' as [_ E'].
  apply (run_unique Py.isdigit) in E'; auto.
  2,3: apply head_not_spaces; auto; reflexivity.
  destruct E' as [-> E']. split; [reflexivity|].
  apply (run_unique Py.isspace) in E'; auto; try reflexivity.
  destruct E' as [_ E']. simpl in E'. inversion E' as [E2].
  apply (run_unique Py.isspace) in E2; auto.
  2,3: apply head_not_digits; auto using digit_not_space; lia.
  destruct E2 as [_ E2].
  apply StrFacts.app_eq_length in E2; [|congruence]. tauto.
Qed.

Lemma int_week_range d :
  Py.all Py.isdigit d = true -> 1 <= String.length d <= 2 ->
  (0 <= Py.int d <= 99)%Z.
Proof.
  intros A L. destruct d as [|c1 [|c2 [|c3 d]]]; simpl in L; try lia;
    cbn [Py.all] in A; unfold Py.int; cbn [Py.int_acc];
    repeat match goal with
           | H : _ && _ = true |- _ => apply andb_prop in H; destruct H
           | H : Py.isdigit _ = true |- _ => apply digit_val_range in H
           end; lia.
Qed.

Lemma int_year_range y :
  Py.all Py.isdigit y = true -> String.length y = 4 ->
  (0 <= Py.int y <= 9999)%Z.
Proof.
  intros A L. destruct y as [|c1 [|c2 [|c3 [|c4 [|c5 y]]]]]; simpl in L;
    try lia; cbn [Py.all] in A; unfold Py.int; cbn [Py.int_acc];
    repeat match goal with
           | H : _ && _ = true |- _ => apply andb_prop in H; destruct H
           | H : Py.isdigit _ = true |- _ => apply digit_val_range in H
           end; lia.
Qed.

(** [int] gives every digit the weight of its place. *)
Lemma digit_val_digit_of c :
  Py.isdigit c = true -> Py.digit_val c = digit_of c.
Proof.
  destruct c as [[] [] [] [] [] [] [] []]; intros D;
    try discriminate D; reflexivity.
Qed.

Lemma int_acc_decimal : forall d acc,
  Py.all Py.isdigit d = true ->
  Py.int_acc acc d = (acc * 10 ^ Z.of_nat (String.length d) + decimal d)%Z.
Proof.
  induction d as [|c d IH]; intros acc A.
  - simpl. lia.
  - cbn [Py.all] in A. apply andb_prop in A. destruct A as [C A].
    cbn [Py.int_acc decimal String.length]. rewrite (IH _ A).
    rewrite (digit_val_digit_of c C), Nat2Z.inj_succ, Z.pow_succ_r by lia.
    ring.
Qed.

Lemma int_decimal d : Py.all Py.isdigit d = true -> Py.int d = decimal d.
Proof. intros A. unfold Py.int. now rewrite int_acc_decimal. Qed.

Lemma hd_error_in {A} (l : list A) x : hd_error l = Some x -> In x l.
Proof. destruct l; simpl; [discriminate|]. intros H; inversion H. now left. Qed.

(** What [parse_week_year] returns: the week and the year of the
    leftmost place where the header holds a week text, or NaN twice. *)
Lemma parse_week_year_cases lbl :
  (exists pre d y,
      occurs lbl pre d y
      /\ (forall pre' d' y', occurs lbl pre' d' y' ->
                             String.length pre <= String.length pre')
      /\ parse_week_year lbl = (Some (Py.int d), Some (Py.int y)))
  \/ ((forall pre d y, ~ occurs lbl pre d y)
      /\ parse_week_year lbl = (None, None)).
Proof.
  unfold parse_week_year, search.
  destruct (search_from pat true EmptyString lbl) as [[pre' o]|] eqn:S.
  - left. apply search_from_some in S.
    destruct S as (a & b & -> & -> & Hd & Min).
    destruct o as [[m rest] g]. apply hd_error_in in Hd.
    apply run_pat_spec in Hd. destruct Hd as (-> & d & y & T & ->).
    exists a, d, y. split; [|split].
    + exists m, rest. auto.
    + intros pre2 d2 y2 (t2 & post2 & E2 & T2).
      destruct (Nat.le_gt_cases (String.length a) (String.length pre2))
        as [|Lt]; [assumption|].
      specialize (Min pre2 (t2 ++ post2)%string E2 Lt).
      assert (I : In (t2, post2, [(1, d2); (2, y2)])
                     (run pat (true && is_empty pre2) (t2 ++ post2))).
      { apply run_pat_spec. split; [reflexivity|]. exists d2, y2. auto. }
      rewrite Min in I. destruct I.
    + reflexivity.
  - right. split; [|reflexivity].
    intros pre d y (t & post & E & T).
    pose proof (search_from_none _ _ _ _ S pre (t ++ post)%string E) as N.
    assert (I : In (t, post, [(1, d); (2, y)])
                   (run pat (true && is_empty pre) (t ++ post))).
    { apply run_pat_spec. split; [reflexivity|]. exists d, y. auto. }
    rewrite N in I. destruct I.
Qed.

End WeekFacts.

(** ** The channel prefix *)

Module ChannelFacts.
Import Re ReFacts SearchFacts.

Lemma den_lit w : w <> EmptyString -> forall bos m g,
  den (lit w) bos m g <-> m = w /\ g = [].
Proof.
  induction w as [|c t IH]; intros NE bos m g; [congruence|].
  destruct t as [|c' t'].
  - simpl. split.
    + intros (x & -> & H & ->). apply Ascii.eqb_eq in H. now subst.
    + intros [-> ->]. exists c. rewrite Ascii.eqb_refl. auto.
  - change (lit (String c (String c' t')))
      with (Cat (chr c) (lit (String c' t'))).
    cbn [den]. split.
    + intros (m1 & m2 & g1 & g2 & -> & -> & (x & -> & H & ->) & D2).
      apply Ascii.eqb_eq in H. subst x.
      apply IH in D2; [|discriminate]. destruct D2 as [-> ->]. auto.
    + intros [-> ->]. exists (String c EmptyString), (String c' t'), [], [].
      split; [reflexivity|]. split; [reflexivity|]. split.
      * exists c. rewrite Ascii.eqb_refl. auto.
      * apply IH; [discriminate|]. auto.
Qed.

Lemma den_PREFIXES bos m g :
  den PREFIXES bos m g <-> In m CHANNELS /\ g = [].
Proof.
  unfold PREFIXES, CHANNELS. cbn [den In].
  rewrite !den_lit by discriminate. intuition congruence.
Qed.

Lemma prefix_app p rest : String.prefix p (p ++ rest) = true.
Proof.
  induction p as [|c p IH]; simpl; [now destruct rest|].
  destruct (ascii_dec c c); [assumption|congruence].
Qed.

Lemma no_prefix_no_match label :
  forallb (fun p => negb (String.prefix p label)) CHANNELS = true ->
  forall m, In m CHANNELS -> forall rest, label <> (m ++ rest)%string.
Proof.
  intros H m I rest ->. rewrite forallb_forall in H.
  specialize (H m I). now rewrite prefix_app in H.
Qed.

Lemma nil_if_no_member {A} (l : list A) : (forall x, ~ In x l) -> l = [].
Proof. destruct l as [|x l]; [reflexivity|]. intros H. destruct (H x). now left. Qed.

Lemma run_CHANNEL_none label :
  forallb (fun p => negb (String.prefix p label)) CHANNELS = true ->
  run CHANNEL true label = [] /\ run CHANNEL_STRIP true label = [].
Proof.
  intros H. split; apply nil_if_no_member; intros [[m rest] g] I;
    apply run_spec in I; destruct I as [E D]; cbn [CHANNEL CHANNEL_STRIP den] in D.
  - destruct D as (m1 & m2 & g1 & g2 & -> & -> & (_ & -> & ->) & g' & D & _).
    apply den_PREFIXES in D. destruct D as [I _].
    now apply (no_prefix_no_match _ H m2 I rest).
  - destruct D as (m1 & m2 & g1 & g2 & -> & -> & (_ & -> & ->) & D).
    destruct D as (p & w & g3 & g4 & -> & -> & (g' & D & _) & _).
    apply den_PREFIXES in D. destruct D as [I _].
    apply (no_prefix_no_match _ H p I (w ++ rest)%string).
    simpl in E. now rewrite <- StrFacts.app_assoc.
Qed.

Lemma search_CHANNEL_inside : forall s pre,
  search_from CHANNEL false pre s = None.
Proof. induction s as [|c t IH]; intros pre; simpl; auto. Qed.

Lemma sub_CHANNEL_STRIP_inside repl : forall s,
  sub_from CHANNEL_STRIP repl false 0 s = s.
Proof. induction s as [|c t IH]; simpl; [reflexivity|]. now rewrite IH. Qed.

Lemma sub_skip r repl : forall w x,
  sub_from r repl false (String.length w) (w ++ x)
  = sub_from r repl false 0 x.
Proof. induction w as [|c w IH]; intros x; simpl; auto. Qed.

(** The first outcome of [\s*] takes all the white space there is. *)
Lemma run_star_space_hd s :
  exists w tl, run_star Py.isspace s = (w, Py.lstrip s, []) :: tl
               /\ s = (w ++ Py.lstrip s)%string.
Proof.
  induction s as [|c t (w & tl & R & E)]; simpl.
  - exists EmptyString, []. auto.
  - destruct (Py.isspace c).
    + rewrite R. simpl. exists (String c w), (map (cons_matched c) tl ++ [(EmptyString, String c t, [])]).
      split; [reflexivity|]. simpl. now rewrite <- E.
    + exists EmptyString, []. auto.
Qed.

Lemma decompose_prefixed p rest :
  In p CHANNELS ->
  extract_channel (p ++ rest) = Some p
  /\ strip_channel (p ++ rest) = Py.lstrip rest.
Proof.
  intros I. destruct (run_star_space_hd rest) as (w & tl & R & E).
  unfold CHANNELS in I. simpl in I.
  destruct I as [<-|[<-|[<-|[<-|[]]]]]; (split; [reflexivity|]);
    unfold strip_channel, sub; cbn -[run_star]; rewrite R; cbn -[sub_from];
    rewrite E at 1; rewrite ?sub_skip.
  all: cbn [sub_from]; rewrite ?sub_skip; apply sub_CHANNEL_STRIP_inside.
Qed.

Lemma decompose_unprefixed label :
  forallb (fun p => negb (String.prefix p label)) CHANNELS = true ->
  extract_channel label = None /\ strip_channel label = label.
Proof.
  intros H. destruct (run_CHANNEL_none label H) as [R1 R2]. split.
  - unfold extract_channel, search.
    assert (search_from CHANNEL true EmptyString label = None) as ->;
      [|reflexivity].
    destruct label as [|c t]; cbn [search_from]; unfold match_here;
      rewrite R1; cbn [hd_error]; [reflexivity|].
    apply search_CHANNEL_inside.
  - unfold strip_channel, sub. destruct label as [|c t].
    + reflexivity.
    + cbn [sub_from]. rewrite R2. now rewrite sub_CHANNEL_STRIP_inside.
Qed.

End ChannelFacts.

(** ** Order of values under [ORDER BY value DESC] *)

Module OrderFacts.
Import Sql.

Lemma desc_before_refl a : desc_before a a = true.
Proof. destruct a as [x|]; simpl; [|reflexivity]. apply Qle_bool_iff, Qle_refl. Qed.

Lemma desc_before_total a b :
  desc_before a b = true \/ desc_before b a = true.
Proof.
  destruct a as [x|], b as [y|]; simpl; auto.
  rewrite !Qle_bool_iff. destruct (Qlt_le_dec x y) as [H|H]; [right|left]; auto.
  now apply Qlt_le_weak.
Qed.

Lemma desc_before_trans a b c :
  desc_before a b = true -> desc_before b c = true -> desc_before a c = true.
Proof.
  destruct a as [x|], b as [y|], c as [z|]; simpl; auto; try discriminate.
  rewrite !Qle_bool_iff. intros H1 H2. now apply Qle_trans with y.
Qed.

(** A selection that is not empty has a row that may come first. *)
Lemma first_row_exists (rows : list TidyRecord) :
  rows <> [] -> exists r, In r rows /\ may_be_first rows r = true.
Proof.
  induction rows as [|r0 rest IH]; [congruence|]. intros _.
  destruct rest as [|r1 rest'].
  - exists r0. split; [now left|]. simpl. now rewrite desc_before_refl.
  - destruct IH as (m & I & F); [discriminate|].
    destruct (desc_before_total (value m) (value r0)) as [H|H].
    + exists m. split; [now right|].
      unfold may_be_first in *. cbn [forallb]. cbn [forallb] in F.
      now rewrite H, F.
    + exists r0. split; [now left|].
      unfold may_be_first in *. apply forallb_forall. intros r' [<-|I'].
      * apply desc_before_refl.
      * apply desc_before_trans with (value m); [assumption|].
        rewrite forallb_forall in F. now apply F.
Qed.

End OrderFacts.

(** ** Grouping in process and by query *)

Module GroupFacts.

Lemma keys_through {K K'} (inj : K -> K') (key : TidyRecord -> option K)
    (key' : TidyRecord -> K') (rows : list TidyRecord) :
  (forall r, In r rows -> exists k, key r = Some k /\ key' r = inj k) ->
  map key' rows = map inj (somes (map key rows)).
Proof.
  induction rows as [|r rows IH]; intros H; simpl; [reflexivity|].
  destruct (H r (or_introl eq_refl)) as (k & -> & ->). simpl.
  f_equal. apply IH. intros r' I. apply H. now right.
Qed.

Lemma insert_key_through {K K'} (cmp : K -> K -> comparison)
    (cmp' : K' -> K' -> comparison) (inj : K -> K') :
  (forall a b, cmp' (inj a) (inj b) = cmp a b) ->
  forall k l,
    insert_key cmp' (inj k) (map inj l) = map inj (insert_key cmp k l).
Proof.
  intros H k l. induction l as [|x l IH]; simpl; [reflexivity|].
  rewrite H. destruct (cmp k x); simpl; [reflexivity|reflexivity|].
  now rewrite IH.
Qed.

Lemma sort_keys_through {K K'} (cmp : K -> K -> comparison)
    (cmp' : K' -> K' -> comparison) (inj : K -> K') :
  (forall a b, cmp' (inj a) (inj b) = cmp a b) ->
  forall l, sort_keys cmp' (map inj l) = map inj (sort_keys cmp l).
Proof.
  intros H l. unfold sort_keys. induction l as [|x l IH]; simpl;
    [reflexivity|].
  rewrite IH. now apply insert_key_through.
Qed.

(** In-process grouping and [GROUP BY ... ORDER BY] give the same rows
    when every record has its key and the aggregates correspond. *)
Lemma groupby_group_by {K K' V} (cmp : K -> K -> comparison)
    (cmp' : K' -> K' -> comparison) (inj : K -> K')
    (key : TidyRecord -> option K) (key' : TidyRecord -> K')
    (agg : list (option Q) -> V) (agg' : list (option Q) -> option Q)
    (g : option Q -> V) (rows : list TidyRecord) :
  (forall a b, cmp' (inj a) (inj b) = cmp a b) ->
  (forall r, In r rows -> exists k, key r = Some k /\ key' r = inj k) ->
  (forall vs, agg vs = g (agg' vs)) ->
  map (fun p => (inj (fst p), snd p)) (groupby cmp key agg rows)
  = map (fun p => (fst p, g (snd p))) (Sql.group_by cmp' key' agg' rows).
Proof.
  intros Hc Hk Ha. unfold groupby, Sql.group_by.
  rewrite (keys_through inj key key' rows Hk).
  rewrite (sort_keys_through cmp cmp' inj Hc).
  rewrite !map_map. apply map_ext. intros k. simpl. f_equal.
  rewrite Ha. do 3 f_equal. apply filter_ext_in. intros r I.
  destruct (Hk r I) as (k0 & -> & ->). now rewrite Hc.
Qed.

(** The float sum that starts from [0.0] and the sum of the query that
    starts from NULL, once a number has been added. *)
Lemma nansum_SUM_from a : forall vs,
  fold_left (fun acc q => Qred (acc + q)) (somes vs) a
  = null_as_zero
      (fold_left (fun acc v =>
                    match acc, v with
                    | _, None => acc
                    | None, Some q => Some (Qred q)
                    | Some a, Some q => Some (Qred (a + q))
                    end) vs (Some a)).
Proof.
  intros vs. revert a. induction vs as [|[q|] vs IH]; intros a; simpl.
  - reflexivity.
  - apply IH.
  - apply IH.
Qed.

Lemma nansum_SUM vs : nansum vs = null_as_zero (Sql.SUM vs).
Proof.
  unfold Sql.SUM, nansum. induction vs as [|[q|] vs IH].
  - reflexivity.
  - cbn [somes fold_left]. rewrite <- nansum_SUM_from. f_equal.
    apply Qred_complete, Qplus_0_l.
  - exact IH.
Qed.

Lemma periods_of_filter f t :
  periods_defined t = true -> forall r, In r (filter f t) ->
  exists y w, year r = Some y /\ week r = Some w.
Proof.
  unfold periods_defined. rewrite forallb_forall. intros H r I.
  apply filter_In in I. destruct I as [I _]. specialize (H r I).
  destruct (year r) as [y|], (week r) as [w|]; try discriminate.
  exists y, w. auto.
Qed.

Lemma improves_true b x :
  improves b x = true -> Sql.desc_before (value x) (value b) = true.
Proof.
  unfold improves, Sql.desc_before.
  destruct (value b) as [vb|], (value x) as [vx|]; try discriminate; auto.
  intros H. apply Qle_bool_iff. apply orb_true_iff in H.
  destruct H as [H|H].
  - apply negb_true_iff in H. destruct (Qlt_le_dec vx vb) as [L|L]; [|exact L].
    apply Qlt_le_weak, Qle_bool_iff in L. congruence.
  - apply andb_prop in H. destruct H as [H _]. apply Qeq_bool_iff in H.
    rewrite H. apply Qle_refl.
Qed.

Lemma improves_false b x vb vx :
  value b = Some vb -> value x = Some vx ->
  improves b x = false -> Sql.desc_before (value b) (value x) = true.
Proof.
  unfold improves, Sql.desc_before. intros -> ->. intros H.
  apply orb_false_iff in H. destruct H as [H _].
  now apply negb_false_iff in H.
Qed.

Lemma fold_max l : forall b,
  notna (value b) = true ->
  (forall x, In x l -> notna (value x) = true) ->
  exists r, fold_left step_max l (Some b) = Some r
            /\ (r = b \/ In r l)
            /\ Sql.desc_before (value r) (value b) = true
            /\ forall x, In x l ->
                 Sql.desc_before (value r) (value x) = true.
Proof.
  induction l as [|x l IH]; intros b Db Dl; simpl.
  - exists b. split; [reflexivity|]. split; [now left|].
    split; [apply OrderFacts.desc_before_refl|]. intros x [].
  - assert (Dx : notna (value x) = true) by (apply Dl; now left).
    assert (Dl' : forall y, In y l -> notna (value y) = true)
      by (intros y I; apply Dl; now right).
    destruct (improves b x) eqn:Imp.
    + destruct (IH x Dx Dl') as (r & F & I & Bx & All).
      exists r. split; [exact F|].
      split; [right; destruct I as [->|I]; [now left|now right]|].
      apply improves_true in Imp. split.
      * now apply OrderFacts.desc_before_trans with (value x).
      * intros y [<-|Iy]; auto.
    + destruct (IH b Db Dl') as (r & F & I & Bb & All).
      exists r. split; [exact F|].
      split; [destruct I as [->|I]; [now left|right; now right]|].
      split; [exact Bb|].
      intros y [<-|Iy]; [|now apply All].
      destruct (value b) as [vb|] eqn:Vb; [|discriminate].
      destruct (value x) as [vx|] eqn:Vx; [|discriminate].
      apply OrderFacts.desc_before_trans with (Some vb); [exact Bb|].
      rewrite <- Vb, <- Vx. now apply improves_false with vb vx.
Qed.

(** The record that [spec_extremum_max] picks is one of the selected
    records, has a value, and no selected record has a greater one. *)
Lemma spec_extremum_max_is_first name t r :
  spec_extremum_max name t = Some r ->
  In r t
  /\ String.eqb (Py.lower (metric_name r)) (Py.lower name) = true
  /\ notna (value r) = true
  /\ forall x, In x t ->
       String.eqb (Py.lower (metric_name x)) (Py.lower name) = true ->
       Sql.desc_before (value r) (value x) = true.
Proof.
  unfold spec_extremum_max.
  set (sel := fun r0 : TidyRecord =>
                String.eqb (Py.lower (metric_name r0)) (Py.lower name)
                && notna (value r0)).
  intros H. change (fold_left step_max (filter sel t) None = Some r) in H.
  assert (D : forall x, In x (filter sel t) -> notna (value x) = true).
  { intros x I. apply filter_In in I. destruct I as [_ S].
    now apply andb_prop in S. }
  destruct (filter sel t) as [|b l] eqn:E; [discriminate|]. simpl in H.
  destruct (fold_max l b) as (r' & F & I & Bb & All).
  { apply D. now left. }
  { intros x Ix. apply D. now right. }
  rewrite F in H. inversion H; subst r'; clear H.
  assert (Ir : In r (b :: l)).
  { destruct I as [->|I]; [now left|now right]. }
  assert (Dr := D r Ir). rewrite <- E in Ir.
  apply filter_In in Ir. destruct Ir as [Ir Sr].
  apply andb_prop in Sr. destruct Sr as [Nr _].
  do 3 (split; [assumption|]).
  intros x Ix Nx. destruct (value x) as [vx|] eqn:Vx.
  - assert (Is : In x (filter sel t)).
    { apply filter_In. split; [assumption|]. unfold sel.
      now rewrite Nx, Vx. }
    rewrite E in Is. rewrite <- Vx. destruct Is as [<-|Is]; auto.
  - now destruct (value r).
Qed.

End GroupFacts.

(* ================================================================== *)
(** * The claims *)

(** ** Label Parser *)

Lemma week_5_2024_occurs :
  occurs "Totals for Week 5, 2024 (est)" "Totals for " "5" "2024".
Proof.
  exists "Week 5, 2024", " (est)". split; [reflexivity|].
  exists "Week", " ", "", " ". repeat split; simpl; lia.
Qed.

(** C4.  [parse_week_year] is a total function of the header text.  When
    the header holds a week text ([Week] in any case, optional white
    space, one or two digits, a comma with optional white space around
    it, four digits) the result is the week and the year of such an
    occurrence as integers; when it holds none the result is NaN for
    both.  ["Week 5, 2024"] and ["week 05 , 2024"] parse to week 5 of
    2024 and ["Q1 2024"] parses to NaN twice. *)
Theorem label_parser_total :
  (forall lbl,
      (exists pre d y,
          occurs lbl pre d y
          /\ parse_week_year lbl = (Some (Py.int d), Some (Py.int y)))
      \/ ((forall pre d y, ~ occurs lbl pre d y)
          /\ parse_week_year lbl = (None, None)))
  /\ parse_week_year "Week 5, 2024" = (Some 5%Z, Some 2024%Z)
  /\ parse_week_year "week 05 , 2024" = (Some 5%Z, Some 2024%Z)
  /\ parse_week_year "Q1 2024" = (None, None).
Proof.
  split; [|repeat split; reflexivity].
  intros lbl. destruct (WeekFacts.parse_week_year_cases lbl)
    as [(pre & d & y & O & _ & P)|[N P]].
  - left. exists pre, d, y. auto.
  - right. auto.
Qed.

(** C9, as the code has it.  A successful parse reads the week from one
    or two digits and the year from exactly four digits, so the week lies
    in 0..99 and the year in 0..9999; no other bound is checked. *)
Theorem label_parser_ranges lbl w y :
  parse_week_year lbl = (Some w, Some y) ->
  exists pre d yy,
    occurs lbl pre d yy /\ w = Py.int d /\ y = Py.int yy
    /\ (0 <= w <= 99)%Z /\ (0 <= y <= 9999)%Z.
Proof.
  intros P. destruct (WeekFacts.parse_week_year_cases lbl)
    as [(pre & d & yy & O & _ & P')|[_ P']]; rewrite P' in P;
    [|discriminate].
  inversion P; subst. exists pre, d, yy.
  destruct O as (t & post & E & k & w1 & w2 & w3 & T & K & W1 & D & L & W2 & W3 & Y & LY).
  split; [|split; [reflexivity|split; [reflexivity|split]]].
  - exists t, post. split; [assumption|]. exists k, w1, w2, w3.
    repeat split; auto; lia.
  - now apply WeekFacts.int_week_range.
  - now apply WeekFacts.int_year_range.
Qed.

Lemma label_parser_ranges_witness :
  parse_week_year "Week 99, 2024" = (Some 99%Z, Some 2024%Z)
  /\ exists pre d yy,
       occurs "Week 99, 2024" pre d yy
       /\ 99%Z = Py.int d /\ 2024%Z = Py.int yy
       /\ (0 <= 99 <= 99)%Z /\ (0 <= 2024 <= 9999)%Z.
Proof.
  split; [reflexivity|].
  apply (label_parser_ranges "Week 99, 2024" 99%Z 2024%Z). reflexivity.
Defined.

(** C9, as the spec words it, fails: week 99 is parsed although it lies
    outside 1..53. *)
Lemma week_99_is_parsed :
  parse_week_year "Week 99, 2024" = (Some 99%Z, Some 2024%Z)
  /\ ~ (1 <= 99 <= 53)%Z.
Proof. split; [reflexivity|lia]. Qed.

(** C10.  The pattern is searched for, not matched against the whole
    header: when a week text occurs anywhere in the header, with any text
    before and after it, the result is the week and the year of the
    leftmost occurrence (which holds one week and one year only), the
    numbers that their digits denote, and not NaN. *)
Theorem label_parser_first_occurrence lbl pre d y :
  occurs lbl pre d y ->
  exists pre0 d0 y0,
    occurs lbl pre0 d0 y0
    /\ String.length pre0 <= String.length pre
    /\ (forall pre' d' y',
           occurs lbl pre' d' y' ->
           String.length pre0 <= String.length pre'
           /\ (String.length pre' = String.length pre0 ->
               d' = d0 /\ y' = y0))
    /\ parse_week_year lbl = (Some (decimal d0), Some (decimal y0))
    /\ (String.length pre = String.length pre0 ->
        parse_week_year lbl = (Some (decimal d), Some (decimal y))).
Proof.
  intros O. destruct (WeekFacts.parse_week_year_cases lbl)
    as [(pre0 & d0 & y0 & O0 & Min & P)|[N _]]; [|now apply N in O].
  assert (Uq : forall pre' d' y',
             occurs lbl pre' d' y' ->
             String.length pre' = String.length pre0 ->
             d' = d0 /\ y' = y0).
  { intros pre' d' y' O' L. assert (pre' = pre0) as ->.
    { destruct O0 as (t0 & post0 & E0 & _), O' as (t' & post' & E' & _).
      rewrite E0 in E'. symmetry in E'.
      now apply StrFacts.app_eq_length in E'. }
    apply (WeekFacts.occurs_unique lbl pre0); assumption. }
  assert (P0 : parse_week_year lbl = (Some (decimal d0), Some (decimal y0))).
  { rewrite P.
    destruct O0 as (t0 & post0 & _ & k & w1 & w2 & w3 & _ & _ & _ & D & _
                    & _ & _ & Y & _).
    now rewrite (WeekFacts.int_decimal d0 D), (WeekFacts.int_decimal y0 Y). }
  exists pre0, d0, y0. split; [assumption|]. split; [now apply (Min pre d y)|].
  split; [|split; [exact P0|]].
  - intros pre' d' y' O'. split; [now apply (Min pre' d' y')|].
    now apply Uq.
  - intros L. destruct (Uq pre d y O L) as [-> ->]. exact P0.
Qed.

(** The header of the claim: week 5 of 2024, read from inside the
    text. *)
Lemma label_parser_first_occurrence_witness :
  occurs "Totals for Week 5, 2024 (est)" "Totals for " "5" "2024"
  /\ parse_week_year "Totals for Week 5, 2024 (est)"
     = (Some 5%Z, Some 2024%Z)
  /\ exists pre0 d0 y0,
       occurs "Totals for Week 5, 2024 (est)" pre0 d0 y0
       /\ String.length pre0 <= String.length "Totals for "
       /\ (forall pre' d' y',
              occurs "Totals for Week 5, 2024 (est)" pre' d' y' ->
              String.length pre0 <= String.length pre'
              /\ (String.length pre' = String.length pre0 ->
                  d' = d0 /\ y' = y0))
       /\ parse_week_year "Totals for Week 5, 2024 (est)"
          = (Some (decimal d0), Some (decimal y0))
       /\ (String.length "Totals for " = String.length pre0 ->
           parse_week_year "Totals for Week 5, 2024 (est)"
           = (Some (decimal "5"), Some (decimal "2024"))).
Proof.
  split; [exact week_5_2024_occurs|]. split; [reflexivity|].
  apply (label_parser_first_occurrence _ "Totals for " "5" "2024").
  exact week_5_2024_occurs.
Defined.

Example parse_inside_longer_text :
  parse_week_year "Totals for Week 5, 2024 (est)" = (Some 5%Z, Some 2024%Z).
Proof. reflexivity. Qed.

(** ** Scope Filter *)

(** C5.  The scope filter keeps a record exactly when its year is 2024,
    or its year is 2025 and its week is at most [CUTOFF_2025_WEEK], which
    is 31: a record of week 32 of 2025 is dropped, records of week 31 of
    2025 and of week 52 of 2024 are kept. *)
Theorem scope_filter_retains_iff :
  CUTOFF_2025_WEEK = 31%Z
  /\ (forall clean r,
         In r (apply_scope clean) <->
         In r clean
         /\ (year r = Some 2024%Z
             \/ (year r = Some 2025%Z
                 /\ exists w, week r = Some w /\ (w <= CUTOFF_2025_WEEK)%Z)))
  /\ (forall c n v m,
         in_scope (mkTidy (Some 2025%Z) (Some 32%Z) c n v m) = false
         /\ in_scope (mkTidy (Some 2025%Z) (Some 31%Z) c n v m) = true
         /\ in_scope (mkTidy (Some 2024%Z) (Some 52%Z) c n v m) = true).
Proof.
  split; [reflexivity|]. split; [|intros; repeat split; reflexivity].
  intros clean r. unfold apply_scope. rewrite filter_In.
  assert (S : in_scope r = true <->
              (year r = Some 2024%Z
               \/ (year r = Some 2025%Z
                   /\ exists w, week r = Some w /\ (w <= CUTOFF_2025_WEEK)%Z))).
  { unfold in_scope, eq_num, le_num.
    destruct (year r) as [y|], (week r) as [w|]; simpl;
      rewrite ?orb_true_iff, ?andb_true_iff, ?Z.eqb_eq, ?Z.leb_le.
    - split.
      + intros [->|[-> L]]; [now left|right]. split; [reflexivity|].
        exists w. auto.
      + intros [E|[E (w' & E' & L)]]; inversion E; subst; [now left|].
        inversion E'; subst. right. auto.
    - split.
      + intros [->|[_ F]]; [now left|discriminate].
      + intros [E|[_ (w' & E' & _)]]; [inversion E; now left|discriminate].
    - split; [discriminate|]. intros [E|[E _]]; discriminate.
    - split; [discriminate|]. intros [E|[E _]]; discriminate. }
  now rewrite S.
Qed.

(** ** Value Normalizer *)

(** C3.  [parse_value] is a total function from a raw cell to an optional
    number: ["$2,345"] gives 2345, ["(1,234)"] gives -1234, the empty
    text, ["N/A"], a bare ["-"] and a missing cell give NaN; whenever the
    conversion of the cleaned text fails, the result is NaN. *)
Theorem value_normalizer_coerces :
  parse_value (Some "$2,345") = Some 2345%Q
  /\ parse_value (Some "(1,234)") = Some (-1234)%Q
  /\ parse_value (Some "") = None
  /\ parse_value (Some "N/A") = None
  /\ parse_value (Some "-") = None
  /\ parse_value None = None
  /\ convert (clean_value_text (Some "N/A")) = ValueError
  /\ convert (clean_value_text (Some "-")) = ValueError
  /\ (forall raw,
         (exists q, convert (clean_value_text raw) = Float q
                    /\ parse_value raw = Some q)
         \/ (convert (clean_value_text raw) = NaN /\ parse_value raw = None)
         \/ (convert (clean_value_text raw) = ValueError
             /\ parse_value raw = None)).
Proof.
  repeat (split; [reflexivity|]).
  intros raw. unfold parse_value, to_numeric_coerce.
  destruct (convert (clean_value_text raw)) as [q| |].
  - left. exists q. auto.
  - right. left. auto.
  - right. right. auto.
Qed.

(** ** Melter *)

Lemma select_In {A} (mask : list bool) : forall (xs : list A) x,
  In x (select mask xs) -> In x xs.
Proof.
  induction mask as [|b mask IH]; intros [|y xs] x; simpl; try tauto.
  destruct b; simpl; intros H.
  - destruct H; [now left|right; auto].
  - right; auto.
Qed.

Lemma melted_records first_col ids mask (df : DataFrame) r :
  In r (map finish
          (filter has_period
             (map with_period
                (melt first_col ids
                   (filter (fun col => negb (is_unnamed (fst col)))
                      (map (fun col => (fst col, select mask (snd col)))
                           df)))))) ->
  exists week_label cells raw w y,
    In (week_label, cells) df /\ In raw cells
    /\ parse_week_year week_label = (Some w, Some y)
    /\ week r = Some w /\ year r = Some y
    /\ value r = parse_value raw
    /\ ((forall q, convert (clean_value_text raw) <> Float q) ->
        value r = None).
Proof.
  intros I.
  apply in_map_iff in I. destruct I as ([[[label wl] raw] [wk yr]] & <- & I).
  apply filter_In in I. destruct I as [I P].
  apply in_map_iff in I. destruct I as ([[label' wl'] raw'] & E & I).
  unfold with_period in E. inversion E; subst label' wl' raw'; clear E.
  unfold melt in I. apply in_flat_map in I.
  destruct I as ([name cells] & C & I). apply filter_In in C.
  destruct C as [C _]. apply filter_In in C. destruct C as [C _].
  apply in_map_iff in C. destruct C as ([name0 cells0] & E & C).
  simpl in E. inversion E; subst name cells; clear E.
  apply in_map_iff in I. destruct I as ([id cell] & E & I). simpl in E.
  inversion E; subst label wl raw; clear E.
  apply in_combine_r in I. apply select_In in I.
  unfold has_period in P. simpl in P.
  destruct wk as [w|], yr as [y|]; try discriminate.
  match goal with
  | H : parse_week_year _ = _ |- _ => rewrite H; rename H into W
  end.
  exists name0, cells0, cell, w, y. simpl.
  do 6 (split; [auto|]).
  intros N. unfold parse_value, to_numeric_coerce.
  destruct (convert (clean_value_text cell)) as [q| |]; auto.
  now destruct (N q).
Qed.

(** C6.  Every record that [tidy_weekly_summary] returns has a week and a
    year, the integers parsed from the header of the column its cell
    stands in (rows whose header does not parse are dropped).  Its value
    is the conversion of that cell: NaN when the text is no number, never
    a zero put in its place. *)
Theorem melter_records_have_period df recs :
  tidy_weekly_summary df = inr recs ->
  forall r, In r recs ->
    exists week_label cells raw w y,
      In (week_label, cells) df /\ In raw cells
      /\ parse_week_year week_label = (Some w, Some y)
      /\ week r = Some w /\ year r = Some y
      /\ value r = parse_value raw
      /\ ((forall q, convert (clean_value_text raw) <> Float q) ->
          value r = None).
Proof.
  unfold tidy_weekly_summary. destruct df as [|[first_col labels] df'];
    [discriminate|].
  match goal with
  | |- (if ?c then _ else _) = _ -> _ => destruct c
  end; [discriminate|].
  match goal with
  | |- (if ?c then _ else _) = _ -> _ => destruct c
  end; [|discriminate].
  intros H r I. inversion H; subst recs; clear H.
  exact (melted_records first_col (somes labels) (map notna labels)
                        ((first_col, labels) :: df') r I).
Qed.

Lemma melter_records_have_period_witness :
  tidy_weekly_summary
    [("Metric", [Some "CB Revenue"]); ("Week 1, 2024", [Some "N/A"]);
     ("Notes", [Some "$5"])]
  = inr [mkTidy (Some 2024%Z) (Some 1%Z) (Some "CB") "Revenue" None
                "CB Revenue"]
  /\ exists week_label cells raw w y,
       In (week_label, cells)
          [("Metric", [Some "CB Revenue"]); ("Week 1, 2024", [Some "N/A"]);
           ("Notes", [Some "$5"])]
       /\ In raw cells
       /\ parse_week_year week_label = (Some w, Some y)
       /\ Some 1%Z = Some w /\ Some 2024%Z = Some y
       /\ None = parse_value raw
       /\ ((forall q, convert (clean_value_text raw) <> Float q) ->
           @None Q = None).
Proof.
  split; [reflexivity|].
  apply (melter_records_have_period
           [("Metric", [Some "CB Revenue"]); ("Week 1, 2024", [Some "N/A"]);
            ("Notes", [Some "$5"])]
           [mkTidy (Some 2024%Z) (Some 1%Z) (Some "CB") "Revenue" None
                   "CB Revenue"]
           eq_refl
           (mkTidy (Some 2024%Z) (Some 1%Z) (Some "CB") "Revenue" None
                   "CB Revenue")).
  now left.
Defined.

(** ** End to end *)

(** C1, as the code has it.  The example frame gives four tidy records,
    column by column; [Total] is one of the channel prefixes, so the rows
    of ["Total Net Income"] have channel [Total] and metric name
    ["Net Income"].  The column [source_file] that [main] adds leaves no
    record, the scope filter keeps all four, and the revenue by year is
    300 for 2024. *)
Theorem end_to_end_example :
  tidy_weekly_summary example_frame = inr example_tidy
  /\ main_clean (assign "source_file" "weekly.csv" example_frame)
     = inr example_tidy
  /\ revenue example_tidy = [(2024%Z, 300%Q)].
Proof. repeat split; reflexivity. Qed.

(** C1, as the spec words it, fails: no record of the example has an
    undefined channel and the metric name ["Total Net Income"]. *)
Lemma end_to_end_total_is_a_channel :
  exists out,
    tidy_weekly_summary example_frame = inr out
    /\ forall r, In r out ->
         ~ (channel r = None /\ metric_name r = "Total Net Income").
Proof.
  exists example_tidy. split; [reflexivity|].
  intros r [<-|[<-|[<-|[<-|[]]]]]; simpl; intros [H _]; discriminate.
Qed.

(** ** Metric Decomposer *)

(** C2, as the code has it.  A label that begins with one of [CB], [BG],
    [DS], [Total] gets that channel, whatever character follows the
    prefix, and its metric name is the rest without leading white space;
    any other label has no channel and is its own metric name. *)
Theorem decomposer_matches_plain_prefix label :
  (forall p rest,
      In p CHANNELS -> label = (p ++ rest)%string ->
      extract_channel label = Some p
      /\ strip_channel label = Py.lstrip rest)
  /\ (forallb (fun p => negb (String.prefix p label)) CHANNELS = true ->
      extract_channel label = None /\ strip_channel label = label).
Proof.
  split.
  - intros p rest I ->. now apply ChannelFacts.decompose_prefixed.
  - apply ChannelFacts.decompose_unprefixed.
Qed.

Lemma decomposer_matches_plain_prefix_witness :
  (In "CB" CHANNELS /\ "CB Revenue" = ("CB" ++ " Revenue")%string
   /\ extract_channel "CB Revenue" = Some "CB"
   /\ strip_channel "CB Revenue" = "Revenue")
  /\ (forallb (fun p => negb (String.prefix p "Revenue")) CHANNELS = true
      /\ extract_channel "Revenue" = None
      /\ strip_channel "Revenue" = "Revenue").
Proof.
  split.
  - split; [now left|]. split; [reflexivity|].
    exact (proj1 (decomposer_matches_plain_prefix "CB Revenue")
                 "CB" " Revenue" (or_introl eq_refl) eq_refl).
  - split; [reflexivity|].
    exact (proj2 (decomposer_matches_plain_prefix "Revenue") eq_refl).
Defined.

(** C2, as the spec words it, fails: ["CBX Revenue"] gets the channel
    [CB] and the metric name ["X Revenue"]. *)
Lemma decomposer_CBX_matches_CB :
  extract_channel "CBX Revenue" = Some "CB"
  /\ strip_channel "CBX Revenue" = "X Revenue"
  /\ (extract_channel "CBX Revenue", strip_channel "CBX Revenue")
     <> (None, "CBX Revenue").
Proof. repeat split; try reflexivity. discriminate. Qed.

(** ** Extremum *)

(** C8, as the code has it.  [most_profitable_week] returns a row of the
    metric name [Net Income] whose value is the greatest, NULL counting
    as the lowest; every such row may be the one returned, so rows that
    tie are not told apart; a row is returned whenever the metric has
    one.  The code has no query for the least value. *)
Theorem extremum_is_some_maximal_row eqv t :
  (forall out,
      Sql.most_profitable_week eqv t out <->
      exists r,
        In r t /\ eqv (metric_name r) "Net Income" = true
        /\ out = (year r, week r, value r)
        /\ forall r', In r' t -> eqv (metric_name r') "Net Income" = true ->
             forall q', value r' = Some q' ->
               exists q, value r = Some q /\ (q' <= q)%Q)
  /\ ((exists r, In r t /\ eqv (metric_name r) "Net Income" = true) ->
      exists out, Sql.most_profitable_week eqv t out).
Proof.
  split.
  - intros out. unfold Sql.most_profitable_week, Sql.where_metric_name,
      Sql.may_be_first. split.
    + intros (r & I & F & ->). apply filter_In in I. destruct I as [I N].
      exists r. do 3 (split; [auto|]).
      intros r' I' N' q' V'. rewrite forallb_forall in F.
      specialize (F r'). rewrite filter_In in F. specialize (F (conj I' N')).
      rewrite V' in F. unfold Sql.desc_before in F.
      destruct (value r) as [q|]; [|discriminate].
      exists q. split; [reflexivity|]. now apply Qle_bool_iff.
    + intros (r & I & N & -> & M). exists r. rewrite filter_In.
      split; [split; assumption|]. split; [|reflexivity].
      apply forallb_forall. intros r' I'. apply filter_In in I'.
      destruct I' as [I' N']. unfold Sql.desc_before.
      destruct (value r') as [q'|] eqn:V'; [|now destruct (value r)].
      destruct (M r' I' N' q' V') as (q & -> & L).
      now apply Qle_bool_iff.
  - intros (r & I & N).
    destruct (OrderFacts.first_row_exists
                (Sql.where_metric_name eqv "Net Income" t)) as (m & Im & Fm).
    + intros E. assert (In r (Sql.where_metric_name eqv "Net Income" t)) as X.
      { apply filter_In. auto. }
      rewrite E in X. destruct X.
    + exists (year m, week m, value m). exists m. auto.
Qed.

Lemma extremum_is_some_maximal_row_witness :
  (exists r, In r tied_weeks
             /\ Sql.collate_ci (metric_name r) "Net Income" = true)
  /\ exists out, Sql.most_profitable_week Sql.collate_ci tied_weeks out.
Proof.
  assert (H : exists r, In r tied_weeks
                        /\ Sql.collate_ci (metric_name r) "Net Income" = true).
  { eexists. split; [now left|reflexivity]. }
  split; [exact H|].
  exact (proj2 (extremum_is_some_maximal_row Sql.collate_ci tied_weeks) H).
Defined.

(** C8, as the spec words it, fails: of two weeks that tie the query may
    return the later one as well as the earlier one. *)
Lemma extremum_tie_is_open :
  Sql.most_profitable_week Sql.collate_ci tied_weeks
    (Some 2024%Z, Some 2%Z, Some 50%Q)
  /\ Sql.most_profitable_week Sql.collate_ci tied_weeks
       (Some 2024%Z, Some 1%Z, Some 50%Q).
Proof.
  split.
  - exists (mkTidy (Some 2024%Z) (Some 2%Z) (Some "Total") "Net Income"
                   (Some 50%Q) "Total Net Income").
    split; [right; now left|]. split; reflexivity.
  - exists (mkTidy (Some 2024%Z) (Some 1%Z) (Some "Total") "Net Income"
                   (Some 50%Q) "Total Net Income").
    split; [now left|]. split; reflexivity.
Qed.

(** ** Aggregates in process and by query *)

(** C7, as the code has it.  Of the four aggregations the script
    computes two in process, the revenue by year and the weekly totals;
    the average and the extremum are computed by query only.  On a table
    whose records all have a year and a week, whose values are whole
    numbers that add up without rounding, and whose metric names the
    collation of the database compares with [Revenue] as the lower-cased
    comparison of the script does: the revenue by year and the weekly
    revenue computed in process are the rows of [total_revenue_per_year]
    and of [weekly_revenue], in their order, with a NULL sum read as
    [0.0]. *)
Theorem aggregates_agree_with_queries eqv t :
  (forall r, In r t ->
     eqv (metric_name r) "Revenue"
     = String.eqb (Py.lower (metric_name r)) "revenue") ->
  periods_defined t = true ->
  exact_sums t = true ->
  map (fun p => (Some (fst p), snd p)) (revenue t)
  = map (fun p => (fst p, null_as_zero (snd p)))
        (Sql.total_revenue_per_year eqv t)
  /\ map (fun p => ((Some (fst (fst p)), Some (snd (fst p))), snd p))
         (weekly_totals t "Revenue")
     = map (fun p => (fst p, null_as_zero (snd p)))
           (Sql.weekly_revenue eqv t).
Proof.
  intros HR HP _.
  assert (ER : filter (fun r => String.eqb (Py.lower (metric_name r)) "revenue") t
               = Sql.where_metric_name eqv "Revenue" t).
  { unfold Sql.where_metric_name. apply filter_ext_in. intros r I.
    now rewrite HR. }
  split.
  - unfold revenue, Sql.total_revenue_per_year. rewrite ER.
    apply (GroupFacts.groupby_group_by Z.compare (Sql.cmp_null Z.compare)
             Some year year nansum Sql.SUM null_as_zero).
    + reflexivity.
    + intros r I. destruct (GroupFacts.periods_of_filter _ t HP r I)
        as (y & w & Y & _). exists y. auto.
    + apply GroupFacts.nansum_SUM.
  - unfold weekly_totals, Sql.weekly_revenue.
    change (Py.lower "Revenue") with "revenue". rewrite ER.
    apply (GroupFacts.groupby_group_by
             (cmp_pair Z.compare Z.compare)
             (cmp_pair (Sql.cmp_null Z.compare) (Sql.cmp_null Z.compare))
             (fun k => (Some (fst k), Some (snd k)))
             year_week (fun r => (year r, week r))
             nansum Sql.SUM null_as_zero).
    + reflexivity.
    + intros r I. destruct (GroupFacts.periods_of_filter _ t HP r I)
        as (y & w & Y & W). exists (y, w). unfold year_week.
        now rewrite Y, W.
    + apply GroupFacts.nansum_SUM.
Qed.

(** On the records of the example and one revenue without a value, under
    the collation that compares texts as they are: 300.0 for 2024 on
    both sides. *)
Lemma aggregates_agree_with_queries_witness :
  periods_defined (undefined_revenue ++ example_tidy) = true
  /\ exact_sums (undefined_revenue ++ example_tidy) = true
  /\ revenue (undefined_revenue ++ example_tidy) = [(2024%Z, 300%Q)]
  /\ Sql.total_revenue_per_year String.eqb
        (undefined_revenue ++ example_tidy)
     = [(Some 2024%Z, Some 300%Q)]
  /\ weekly_totals (undefined_revenue ++ example_tidy) "Revenue"
     = [((2024%Z, 1%Z), 100%Q); ((2024%Z, 2%Z), 200%Q)]
  /\ map (fun p => (Some (fst p), snd p))
         (revenue (undefined_revenue ++ example_tidy))
     = map (fun p => (fst p, null_as_zero (snd p)))
           (Sql.total_revenue_per_year String.eqb
              (undefined_revenue ++ example_tidy))
  /\ map (fun p => ((Some (fst (fst p)), Some (snd (fst p))), snd p))
         (weekly_totals (undefined_revenue ++ example_tidy) "Revenue")
     = map (fun p => (fst p, null_as_zero (snd p)))
           (Sql.weekly_revenue String.eqb
              (undefined_revenue ++ example_tidy)).
Proof.
  assert (C : forall r, In r (undefined_revenue ++ example_tidy) ->
                String.eqb (metric_name r) "Revenue"
                = String.eqb (Py.lower (metric_name r)) "revenue").
  { intros r I. simpl in I.
    repeat (destruct I as [<-|I]; [reflexivity|]). destruct I. }
  do 5 (split; [reflexivity|]).
  exact (aggregates_agree_with_queries String.eqb
           (undefined_revenue ++ example_tidy) C eq_refl eq_refl).
Defined.

(** C7, as the spec words it, fails: for a year whose revenue values are
    all undefined the sum in process is [0.0] and the sum of the query
    is NULL.  The table is what the script makes of a cell [N/A]. *)
Lemma sum_of_nothing_differs :
  main_clean [("Metric", [Some "CB Revenue"]); ("Week 1, 2024", [Some "N/A"])]
  = inr undefined_revenue
  /\ revenue undefined_revenue = [(2024%Z, 0%Q)]
  /\ Sql.total_revenue_per_year Sql.collate_ci undefined_revenue
     = [(Some 2024%Z, None)]
  /\ Sql.total_revenue_per_year String.eqb undefined_revenue
     = [(Some 2024%Z, None)]
  /\ map (fun p => (Some (fst p), Some (snd p))) (revenue undefined_revenue)
     <> Sql.total_revenue_per_year Sql.collate_ci undefined_revenue.
Proof. repeat split; try reflexivity. discriminate. Qed.

(** The collation decides what the queries select: the script compares
    the lower-cased name, so a label [REVENUE] counts as revenue in
    process; a query under a collation that tells the cases apart does
    not select it, and a query under one that does not, does. *)
Example collation_decides_the_query :
  main_clean [("Metric", [Some "REVENUE"]); ("Week 1, 2024", [Some "100"])]
  = inr capital_revenue
  /\ revenue capital_revenue = [(2024%Z, 100%Q)]
  /\ Sql.total_revenue_per_year String.eqb capital_revenue = []
  /\ Sql.total_revenue_per_year Sql.collate_ci capital_revenue
     = [(Some 2024%Z, Some 100%Q)].
Proof. repeat split; reflexivity. Qed.

(** The in-process total of net income selects the whole label
    [Total Net Income]; the query [total_net_income_per_year] sums the
    net income of every channel. *)
Example total_net_selects_by_label :
  let t :=
    [mkTidy (Some 2024%Z) (Some 1%Z) (Some "CB") "Net Income" (Some 5%Q)
            "CB Net Income";
     mkTidy (Some 2024%Z) (Some 1%Z) (Some "Total") "Net Income" (Some 5%Q)
            "Total Net Income"] in
  total_net t = [(2024%Z, 5%Q)]
  /\ Sql.total_net_income_per_year Sql.collate_ci t
     = [(Some 2024%Z, Some 10%Q)].
Proof. split; reflexivity. Qed.

(* ================================================================== *)
(** * Further properties of the code *)

(** ** The frame that [tidy_weekly_summary] melts *)

Module TidyFacts.
Import Re ReFacts.

Lemma prefix_split p : forall s,
  String.prefix p s = true -> exists rest, s = (p ++ rest)%string.
Proof.
  induction p as [|c p IH]; intros s H.
  - exists s. reflexivity.
  - destruct s as [|c' s]; simpl in H; [discriminate|].
    destruct (ascii_dec c c') as [<-|]; [|discriminate].
    destruct (IH s H) as (rest & ->). exists rest. reflexivity.
Qed.

Lemma search_UNNAMED_inside : forall s pre,
  search_from UNNAMED false pre s = None.
Proof. induction s as [|c t IH]; intros pre; simpl; auto. Qed.

(** A column counts as unnamed exactly when its name begins with
    [Unnamed]. *)
Lemma is_unnamed_prefix name :
  is_unnamed name = String.prefix "Unnamed" name.
Proof.
  destruct (String.prefix "Unnamed" name) eqn:P.
  - apply prefix_split in P. destruct P as (rest & ->). reflexivity.
  - unfold is_unnamed, search.
    assert (R : run UNNAMED true name = []).
    { apply ChannelFacts.nil_if_no_member. intros [[m rest] g] I.
      apply run_spec in I. destruct I as [E D].
      cbn [UNNAMED den] in D.
      destruct D as (m1 & m2 & g1 & g2 & -> & -> & (_ & -> & ->) & D).
      apply ChannelFacts.den_lit in D; [|discriminate].
      destruct D as [-> _].
      assert (P' := ChannelFacts.prefix_app "Unnamed" rest).
      simpl in E. subst name. simpl in P, P'. congruence. }
    destruct name as [|c t]; cbn [search_from]; unfold match_here;
      rewrite R; cbn [hd_error]; [reflexivity|].
    now rewrite search_UNNAMED_inside.
Qed.

Lemma block_records name (l : list (string * cell)) :
  map finish
      (filter has_period
         (map with_period (map (fun p => (fst p, name, snd p)) l)))
  = if notna (fst (parse_week_year name))
       && notna (snd (parse_week_year name))
    then map (record_of name) l else [].
Proof.
  induction l as [|[id c] l IH]; cbn [map filter].
  - now destruct (notna _ && notna _).
  - assert (H : has_period (with_period (fst (id, c), name, snd (id, c)))
                = notna (fst (parse_week_year name))
                  && notna (snd (parse_week_year name))) by reflexivity.
    rewrite H.
    destruct (notna (fst (parse_week_year name))
              && notna (snd (parse_week_year name))) eqn:N.
    + cbn [map]. rewrite IH. f_equal.
      unfold with_period, finish, record_of. cbn [fst snd].
      now destruct (parse_week_year name).
    + exact IH.
Qed.

Lemma melted_blocks first_col ids mask (cols : DataFrame) :
  map finish
      (filter has_period
         (map with_period
            (melt first_col ids
               (filter (fun col => negb (is_unnamed (fst col)))
                  (map (fun col => (fst col, select mask (snd col)))
                       cols)))))
  = flat_map (fun col => map (record_of (fst col))
                             (combine ids (select mask (snd col))))
             (filter (is_period_column first_col) cols).
Proof.
  unfold melt.
  set (blk := fun col : string * list cell =>
                map (fun p : string * cell => (fst p, fst col, snd p))
                    (combine ids (snd col))).
  set (ne := fun col : string * list cell =>
               negb (String.eqb (fst col) first_col)).
  set (un := fun col : string * list cell => negb (is_unnamed (fst col))).
  set (sel := fun col : string * list cell =>
                (fst col, select mask (snd col))).
  set (rec := fun col : string * list cell =>
                map (record_of (fst col)) (combine ids (select mask (snd col)))).
  induction cols as [|[name cells] cols IH]; [reflexivity|].
  assert (P : is_period_column first_col (name, cells)
              = negb (is_unnamed name) && negb (String.eqb name first_col)
                && (notna (fst (parse_week_year name))
                    && notna (snd (parse_week_year name)))).
  { unfold is_period_column. cbn [fst]. now rewrite <- !andb_assoc. }
  cbn [map filter]. rewrite P.
  change (un (sel (name, cells))) with (negb (is_unnamed name)).
  destruct (is_unnamed name); cbn [negb andb]; [exact IH|].
  cbn [filter].
  change (ne (sel (name, cells))) with (negb (String.eqb name first_col)).
  destruct (String.eqb name first_col); cbn [negb andb]; [exact IH|].
  cbn [flat_map]. rewrite map_app, filter_app, map_app.
  pose proof (block_records name (combine ids (select mask cells))) as B.
  destruct (notna (fst (parse_week_year name))
            && notna (snd (parse_week_year name))).
  - cbn [flat_map]. apply (f_equal2 (@app TidyRecord)); [exact B|exact IH].
  - change (flat_map rec (filter (is_period_column first_col) cols))
      with ([] ++ flat_map rec (filter (is_period_column first_col) cols)).
    apply (f_equal2 (@app TidyRecord)); [exact B|exact IH].
Qed.

(** The name of [value_name] is looked for among the columns that are
    left, and no column of that name is dropped as unnamed. *)
Lemma value_raw_left mask : forall (df : DataFrame),
  existsb (fun col : string * list cell => String.eqb (fst col) "value_raw")
          (filter (fun col => negb (is_unnamed (fst col)))
                  (map (fun col => (fst col, select mask (snd col))) df))
  = has_value_raw df.
Proof.
  unfold has_value_raw.
  induction df as [|[n c] df IH]; [reflexivity|].
  cbn [map filter fst existsb].
  destruct (String.eqb_spec n "value_raw") as [->|N].
  - reflexivity.
  - destruct (is_unnamed n); cbn [negb]; [exact IH|].
    cbn [existsb fst]. rewrite IH.
    apply String.eqb_neq in N. now rewrite N.
Qed.

(** The three outcomes of [tidy_weekly_summary] on a frame that has
    columns; the records come column by column and row by row. *)
Lemma tidy_cases first_col labels rest :
  tidy_weekly_summary ((first_col, labels) :: rest)
  = if has_value_raw ((first_col, labels) :: rest) then inl MeltValueError
    else if is_unnamed first_col then inl KeyError
    else inr (flat_map
                (fun col =>
                   map (record_of (fst col))
                       (labelled_cells ((first_col, labels) :: rest) col))
                (period_columns ((first_col, labels) :: rest))).
Proof.
  unfold tidy_weekly_summary.
  set (df := (first_col, labels) :: rest).
  rewrite (value_raw_left (map notna labels) df).
  destruct (has_value_raw df); [reflexivity|].
  set (df2 := filter _ (map _ df)).
  destruct (is_unnamed first_col) eqn:U.
  - assert (E : existsb (fun col : string * list cell =>
                           String.eqb (fst col) first_col) df2 = false).
    { destruct (existsb _ df2) eqn:X; [|reflexivity].
      apply existsb_exists in X. destruct X as ([n c] & I & N).
      apply filter_In in I. destruct I as [_ F]. simpl in N, F.
      apply String.eqb_eq in N. subst n. now rewrite U in F. }
    now rewrite E.
  - assert (E : existsb (fun col : string * list cell =>
                           String.eqb (fst col) first_col) df2 = true).
    { unfold df2, df. cbn [map filter fst]. rewrite U.
      cbn [negb existsb fst]. now rewrite String.eqb_refl. }
    rewrite E. f_equal. unfold df2. apply melted_blocks.
Qed.

Lemma tidy_value_raw first_col labels rest :
  has_value_raw ((first_col, labels) :: rest) = true ->
  tidy_weekly_summary ((first_col, labels) :: rest) = inl MeltValueError.
Proof. intros V. now rewrite tidy_cases, V. Qed.

Lemma tidy_unnamed first_col labels rest :
  has_value_raw ((first_col, labels) :: rest) = false ->
  is_unnamed first_col = true ->
  tidy_weekly_summary ((first_col, labels) :: rest) = inl KeyError.
Proof. intros V U. now rewrite tidy_cases, V, U. Qed.

Lemma tidy_named first_col labels rest :
  has_value_raw ((first_col, labels) :: rest) = false ->
  is_unnamed first_col = false ->
  tidy_weekly_summary ((first_col, labels) :: rest)
  = inr (flat_map
           (fun col => map (record_of (fst col))
                           (labelled_cells ((first_col, labels) :: rest) col))
           (period_columns ((first_col, labels) :: rest))).
Proof. intros V U. now rewrite tidy_cases, V, U. Qed.

Lemma tidy_by_column df recs :
  tidy_weekly_summary df = inr recs ->
  recs = flat_map (fun col => map (record_of (fst col))
                                  (labelled_cells df col))
                  (period_columns df).
Proof.
  destruct df as [|[name labels] rest]; [discriminate|].
  rewrite tidy_cases.
  destruct (has_value_raw _); [discriminate|].
  destruct (is_unnamed name); [discriminate|].
  intros H. now inversion H.
Qed.

(** A frame on which the function returns has none of the two names. *)
Lemma tidy_returns name labels rest recs :
  tidy_weekly_summary ((name, labels) :: rest) = inr recs ->
  has_value_raw ((name, labels) :: rest) = false
  /\ is_unnamed name = false.
Proof.
  rewrite tidy_cases.
  destruct (has_value_raw _); [discriminate|].
  destruct (is_unnamed name); [discriminate|]. auto.
Qed.

(** The outcome depends on the columns after the first one only through
    their names and through the period columns among them. *)
Lemma tidy_ext name labels (rest rest' : DataFrame) :
  has_value_raw rest = has_value_raw rest' ->
  filter (is_period_column name) rest = filter (is_period_column name) rest' ->
  tidy_weekly_summary ((name, labels) :: rest)
  = tidy_weekly_summary ((name, labels) :: rest').
Proof.
  intros V E. rewrite !tidy_cases.
  unfold has_value_raw in *. cbn [existsb fst]. rewrite V.
  destruct (_ || _); [reflexivity|].
  destruct (is_unnamed name); [reflexivity|]. f_equal.
  unfold period_columns, labelled_cells. cbn [filter]. rewrite E.
  reflexivity.
Qed.

Lemma length_select labels : forall (cells : list cell),
  length cells = length labels ->
  length (select (map (@notna string) labels) cells) = length (somes labels).
Proof.
  induction labels as [|[l|] labels IH]; intros [|c cells] L;
    simpl in *; try discriminate; auto.
Qed.

End TidyFacts.

(** ** The provenance column and the label *)

Module LabelFacts.

Lemma source_file_is_no_period first_col cells :
  is_period_column first_col ("source_file", cells) = false.
Proof.
  unfold is_period_column. cbn [fst].
  change (parse_week_year "source_file") with (@None Z, @None Z).
  cbn [fst snd notna]. now rewrite !andb_false_r.
Qed.

Lemma period_columns_replace first_col col : forall (rest : DataFrame),
  fst col = "source_file" ->
  filter (is_period_column first_col)
         (map (fun c : string * list cell =>
                 if String.eqb (fst c) "source_file" then col else c) rest)
  = filter (is_period_column first_col) rest.
Proof.
  intros rest E. destruct col as [n cells]. simpl in E. subst n.
  induction rest as [|[n c] rest IH]; [reflexivity|].
  cbn [map filter fst]. destruct (String.eqb_spec n "source_file") as [->|N].
  - rewrite !source_file_is_no_period. exact IH.
  - now rewrite IH.
Qed.

Lemma lstrip_split : forall s,
  exists ws, Py.all Py.isspace ws = true
             /\ s = (ws ++ Py.lstrip s)%string
             /\ head_not Py.isspace (Py.lstrip s).
Proof.
  induction s as [|c t (ws & A & E & H)].
  - exists EmptyString. simpl. auto.
  - simpl. destruct (Py.isspace c) eqn:S.
    + exists (String c ws). simpl. rewrite S, A. split; [reflexivity|].
      split; [now rewrite <- E|assumption].
    + exists EmptyString. simpl. auto.
Qed.

Lemma forallb_false {A} (f : A -> bool) : forall l,
  forallb f l = false -> exists x, In x l /\ f x = false.
Proof.
  induction l as [|x l IH]; simpl; [discriminate|].
  destruct (f x) eqn:F; simpl.
  - intros H. destruct (IH H) as (y & I & Fy). exists y. auto.
  - intros _. exists x. auto.
Qed.

Lemma value_raw_replace col : forall (rest : DataFrame),
  fst col = "source_file" ->
  has_value_raw
    (map (fun c : string * list cell =>
            if String.eqb (fst c) "source_file" then col else c) rest)
  = has_value_raw rest.
Proof.
  intros rest E. unfold has_value_raw.
  induction rest as [|[n c] rest IH]; [reflexivity|].
  cbn [map existsb fst]. rewrite IH.
  destruct (String.eqb_spec n "source_file") as [->|N]; [|reflexivity].
  now rewrite E.
Qed.

(** Line 168 before [tidy_weekly_summary]. *)
Lemma source_file_neutral file name labels rest :
  name <> "source_file" ->
  tidy_weekly_summary (assign "source_file" file ((name, labels) :: rest))
  = tidy_weekly_summary ((name, labels) :: rest).
Proof.
  intros N. unfold assign.
  set (col := ("source_file", repeat (Some file) (nrows ((name, labels) :: rest)))).
  assert (F : String.eqb name "source_file" = false)
    by now apply String.eqb_neq.
  cbn [existsb fst map]. rewrite F. cbn [orb].
  destruct (existsb _ rest).
  - apply TidyFacts.tidy_ext.
    + exact (value_raw_replace col rest eq_refl).
    + exact (period_columns_replace name col rest eq_refl).
  - change (((name, labels) :: rest) ++ [col])
      with ((name, labels) :: (rest ++ [col])).
    apply TidyFacts.tidy_ext.
    + unfold has_value_raw. rewrite existsb_app. cbn [existsb fst col].
      apply orb_false_r.
    + rewrite filter_app. cbn [filter]. unfold col.
      rewrite source_file_is_no_period. apply app_nil_r.
Qed.

End LabelFacts.

(* ================================================================== *)
(** * Further properties of the code *)

(** ** [tidy_weekly_summary] *)

(** X1.  What [melt] refuses.  On a frame one of whose columns is named
    [value_raw], the name that line 81 gives to the column of values,
    [tidy_weekly_summary] raises the [ValueError] of [melt].  On any other
    frame whose first column has a name that begins with [Unnamed] it
    raises [KeyError]: that column is dropped with the other unnamed
    columns before [melt] looks for it. *)
Theorem melt_refuses name labels rest :
  (has_value_raw ((name, labels) :: rest) = true ->
   tidy_weekly_summary ((name, labels) :: rest) = inl MeltValueError)
  /\ (has_value_raw ((name, labels) :: rest) = false ->
      String.prefix "Unnamed" name = true ->
      tidy_weekly_summary ((name, labels) :: rest) = inl KeyError).
Proof.
  rewrite TidyFacts.tidy_cases, <- TidyFacts.is_unnamed_prefix. split.
  - now intros ->.
  - now intros -> ->.
Qed.

Lemma melt_refuses_witness :
  tidy_weekly_summary
    [("Metric", [Some "CB Revenue"]); ("value_raw", [Some "$100"])]
  = inl MeltValueError
  /\ tidy_weekly_summary
       [("Unnamed: 0", [Some "CB Revenue"]); ("Week 1, 2024", [Some "$100"])]
     = inl KeyError.
Proof.
  split.
  - exact (proj1 (melt_refuses "Metric" [Some "CB Revenue"]
                    [("value_raw", [Some "$100"])]) eq_refl).
  - exact (proj2 (melt_refuses "Unnamed: 0" [Some "CB Revenue"]
                    [("Week 1, 2024", [Some "$100"])]) eq_refl eq_refl).
Defined.

(** X2.  When [tidy_weekly_summary] returns, its records are, for the
    period columns in the order of the frame, the labelled rows of each
    column in the order of the rows: one record for every labelled row
    under every period column, whatever the cell holds. *)
Theorem tidy_records_by_column df recs :
  tidy_weekly_summary df = inr recs ->
  recs = flat_map (fun col => map (record_of (fst col))
                                  (labelled_cells df col))
                  (period_columns df).
Proof.
  destruct df as [|[name labels] rest]; [discriminate|].
  rewrite TidyFacts.tidy_cases.
  destruct (has_value_raw _); [discriminate|].
  destruct (is_unnamed name); [discriminate|].
  intros H. now inversion H.
Qed.

Lemma tidy_records_by_column_witness :
  tidy_weekly_summary example_frame = inr example_tidy
  /\ example_tidy
     = flat_map (fun col => map (record_of (fst col))
                                (labelled_cells example_frame col))
                (period_columns example_frame).
Proof.
  split; [reflexivity|].
  exact (tidy_records_by_column example_frame example_tidy eq_refl).
Defined.

(** X3.  On a frame in which every column has one cell per row, the
    number of records is the number of labelled rows times the number of
    period columns: no record is lost or added because of the cell. *)
Theorem tidy_record_count df recs :
  rectangular df = true ->
  tidy_weekly_summary df = inr recs ->
  length recs = labelled_rows df * length (period_columns df).
Proof.
  intros R T. rewrite (TidyFacts.tidy_by_column df recs T).
  destruct df as [|[name labels] rest]; [reflexivity|].
  unfold period_columns, labelled_cells, labelled_rows.
  unfold rectangular in R. rewrite forallb_forall in R.
  cbn [nrows] in R.
  assert (I : forall col,
             In col (filter (is_period_column name) ((name, labels) :: rest)) ->
             In col ((name, labels) :: rest)).
  { intros col H. now apply filter_In in H. }
  induction (filter (is_period_column name) ((name, labels) :: rest))
    as [|col cols IH]; [now rewrite Nat.mul_0_r|].
  cbn [flat_map]. rewrite length_app, length_map, IH;
    [|intros c H; apply I; now right].
  rewrite length_combine, TidyFacts.length_select.
  - cbn [length]. lia.
  - apply Nat.eqb_eq, R, I. now left.
Qed.

Lemma tidy_record_count_witness :
  rectangular example_frame = true
  /\ tidy_weekly_summary example_frame = inr example_tidy
  /\ length example_tidy
     = labelled_rows example_frame * length (period_columns example_frame).
Proof.
  split; [reflexivity|]. split; [reflexivity|].
  exact (tidy_record_count example_frame example_tidy eq_refl eq_refl).
Defined.

(** X4.  The column [source_file] that [main] adds to every frame leaves
    the tidy records as they are: its header holds no week, so its cells
    give no record and the name of the file is not kept.  This holds for
    every frame whose first column is not itself named [source_file]. *)
Theorem source_file_leaves_no_record file name labels rest :
  name <> "source_file" ->
  tidy_weekly_summary (assign "source_file" file ((name, labels) :: rest))
  = tidy_weekly_summary ((name, labels) :: rest).
Proof.
  intros N. apply LabelFacts.source_file_neutral. exact N.
Qed.

Lemma source_file_leaves_no_record_witness :
  "Metric" <> "source_file"
  /\ tidy_weekly_summary (assign "source_file" "weekly.csv" example_frame)
     = tidy_weekly_summary example_frame.
Proof.
  split; [discriminate|].
  apply (source_file_leaves_no_record "weekly.csv" "Metric").
  discriminate.
Defined.

(** ** Metric Decomposer *)

(** X5.  Channel and metric name keep the whole label but for white
    space: every label is its channel (or nothing), then white space,
    then its metric name.  When there is a channel it is one of the four
    prefixes and the metric name begins with no white space; when there
    is none, no prefix begins the label and the metric name is the
    label. *)
Theorem label_is_channel_space_name label :
  exists ws,
    Py.all Py.isspace ws = true
    /\ label = ((match extract_channel label with
                 | Some c => c
                 | None => EmptyString
                 end) ++ ws ++ strip_channel label)%string
    /\ match extract_channel label with
       | Some c => In c CHANNELS
                   /\ head_not Py.isspace (strip_channel label)
       | None => ws = EmptyString
                 /\ forall p, In p CHANNELS -> String.prefix p label = false
       end.
Proof.
  destruct (forallb (fun p => negb (String.prefix p label)) CHANNELS) eqn:F.
  - destruct (ChannelFacts.decompose_unprefixed label F) as [-> ->].
    exists EmptyString. split; [reflexivity|]. split; [reflexivity|].
    split; [reflexivity|]. intros p I. rewrite forallb_forall in F.
    apply negb_true_iff. now apply F.
  - apply LabelFacts.forallb_false in F. destruct F as (p & I & P).
    apply negb_false_iff in P. apply TidyFacts.prefix_split in P.
    destruct P as (rest & ->).
    destruct (ChannelFacts.decompose_prefixed p rest I) as [-> ->].
    destruct (LabelFacts.lstrip_split rest) as (ws & A & E & H).
    exists ws. split; [assumption|]. split; [now rewrite <- E|]. auto.
Qed.

(** X6.  Every tidy record keeps its label: [metric] is a label of the
    first column of the frame, and the channel and the metric name are
    the ones of that label. *)
Theorem record_fields_from_label df recs r :
  tidy_weekly_summary df = inr recs -> In r recs ->
  (exists name labels rest,
      df = (name, labels) :: rest /\ In (Some (metric r)) labels)
  /\ channel r = extract_channel (metric r)
  /\ metric_name r = strip_channel (metric r).
Proof.
  intros T I. rewrite (TidyFacts.tidy_by_column df recs T) in I.
  destruct df as [|[name labels] rest]; [destruct I|].
  apply in_flat_map in I. destruct I as (col & _ & I).
  apply in_map_iff in I. destruct I as ([id c] & <- & I).
  unfold labelled_cells in I. apply in_combine_l in I.
  split; [|split; reflexivity].
  exists name, labels, rest. split; [reflexivity|]. cbn [record_of metric fst].
  clear - I. induction labels as [|[l|] labels IH]; simpl in *.
  - destruct I.
  - destruct I as [->|I]; [now left|right; auto].
  - right; auto.
Qed.

Lemma record_fields_from_label_witness :
  tidy_weekly_summary example_frame = inr example_tidy
  /\ In (mkTidy (Some 2024%Z) (Some 1%Z) (Some "CB") "Revenue" (Some 100%Q)
                "CB Revenue") example_tidy
  /\ (exists name labels rest,
         example_frame = (name, labels) :: rest
         /\ In (Some "CB Revenue") labels)
  /\ Some "CB" = extract_channel "CB Revenue"
  /\ "Revenue" = strip_channel "CB Revenue".
Proof.
  split; [reflexivity|]. split; [now left|].
  exact (record_fields_from_label example_frame example_tidy _
           eq_refl (or_introl eq_refl)).
Defined.

(** ** The value of a cell *)

Module ValueFacts.
Import Re.

Lemma sub_CURRENCY s :
  sub CURRENCY (fun _ => EmptyString) s = without_currency s.
Proof.
  unfold sub. generalize true as bos. induction s as [|c t IH]; intros bos.
  - reflexivity.
  - cbn [sub_from CURRENCY run without_currency].
    destruct (Ascii.eqb c "$" || Ascii.eqb c ","); cbn.
    + apply IH.
    + now rewrite IH.
Qed.

Lemma without_currency_app a b :
  without_currency (a ++ b)
  = (without_currency a ++ without_currency b)%string.
Proof.
  induction a as [|c a IH]; simpl; [reflexivity|].
  destruct (Ascii.eqb c "$" || Ascii.eqb c ","); simpl; now rewrite IH.
Qed.

(** The cleaned text depends on the cell through its text without [$]
    and [,] only. *)
Lemma clean_value_text_currency s :
  clean_value_text (Some s)
  = Py.strip (sub PARENS (fun mo => ("-" ++ group_text 1 mo)%string)
                  (without_currency s)).
Proof. unfold clean_value_text, astype_str. now rewrite sub_CURRENCY. Qed.

Lemma sub_PARENS_none repl : forall s bos,
  Py.all not_open s = true -> sub_from PARENS repl bos 0 s = s.
Proof.
  induction s as [|c t IH]; intros bos A; [reflexivity|].
  simpl in A. apply andb_prop in A. destruct A as [C A].
  unfold not_open in C. apply negb_true_iff in C.
  cbn [sub_from PARENS run chr]. rewrite Ascii.eqb_sym, C.
  cbn [flat_map]. now rewrite IH.
Qed.

Lemma sub_skip_all r repl : forall w,
  sub_from r repl false (String.length w) w
  = sub_from r repl false 0 EmptyString.
Proof. induction w as [|c w IH]; simpl; auto. Qed.

(** The first outcome of [p*] takes every character of the class. *)
Lemma run_star_hd p : forall a x,
  Py.all p a = true -> head_not p x ->
  exists tl, run_star p (a ++ x) = (a, x, []) :: tl.
Proof.
  induction a as [|c a IH]; intros x A H.
  - destruct x as [|c t]; simpl in *.
    + exists []. reflexivity.
    + rewrite H. exists []. reflexivity.
  - simpl in A. apply andb_prop in A. destruct A as [C A].
    destruct (IH x A H) as (tl & R). simpl. rewrite C, R. simpl.
    eexists. reflexivity.
Qed.

Lemma run_PARENS_hd bos c d rest :
  not_close c = true -> Py.all not_close d = true ->
  exists tl,
    run PARENS bos (String "(" (String c (d ++ String ")" rest)))
    = (String "(" (String c (d ++ ")")), rest, [(1, String c d)]) :: tl.
Proof.
  intros C D.
  destruct (run_star_hd not_close d (String ")" rest) D eq_refl) as (tl & R).
  unfold not_close in C.
  cbn -[run_star]. rewrite C. cbn -[run_star].
  change (fun c0 : ascii => negb (Ascii.eqb c0 ")")) with not_close.
  rewrite R. cbn. eexists. reflexivity.
Qed.

Lemma digit_not_open c : Py.isdigit c = true -> not_open c = true.
Proof.
  unfold not_open. intros H. destruct (Ascii.eqb_spec c "(") as [->|];
    [discriminate|reflexivity].
Qed.

Lemma digit_not_close c : Py.isdigit c = true -> not_close c = true.
Proof.
  unfold not_close. intros H. destruct (Ascii.eqb_spec c ")") as [->|];
    [discriminate|reflexivity].
Qed.

Lemma all_weaken (p q : ascii -> bool) :
  (forall c, p c = true -> q c = true) ->
  forall s, Py.all p s = true -> Py.all q s = true.
Proof.
  intros H. induction s as [|c s IH]; simpl; [reflexivity|].
  intros A. apply andb_prop in A. destruct A as [C A].
  now rewrite (H c C), (IH A).
Qed.

(** [(d)] is rewritten to [-d]. *)
Lemma sub_PARENS_digits d :
  Py.all Py.isdigit d = true -> d <> EmptyString ->
  sub PARENS (fun mo => ("-" ++ group_text 1 mo)%string)
      ("(" ++ d ++ ")")
  = ("-" ++ d)%string.
Proof.
  intros A N. destruct d as [|c d]; [congruence|].
  simpl in A. apply andb_prop in A. destruct A as [C A].
  destruct (run_PARENS_hd true c d EmptyString (digit_not_close c C)
              (all_weaken _ _ digit_not_close d A)) as (tl & R).
  unfold sub.
  change ("(" ++ String c d ++ ")")%string
    with (String "(" (String c (d ++ ")"))).
  cbn [sub_from]. rewrite R. cbn [nonempty is_empty negb].
  cbn [String.length Nat.pred].
  change (S (String.length (d ++ ")")))
    with (String.length (String c (d ++ ")"))).
  rewrite sub_skip_all. cbn.
  now rewrite StrFacts.app_nil_r.
Qed.

Lemma rstrip_not_space : forall s,
  Py.all not_space s = true -> Py.rstrip s = s.
Proof.
  induction s as [|c s IH]; [reflexivity|]. simpl. intros A.
  apply andb_prop in A. destruct A as [C A]. rewrite (IH A).
  unfold not_space in C. apply negb_true_iff in C.
  destruct s; [now rewrite C|reflexivity].
Qed.

Lemma strip_not_space s : Py.all not_space s = true -> Py.strip s = s.
Proof.
  intros A. unfold Py.strip.
  assert (L : Py.lstrip s = s).
  { destruct s as [|c s]; [reflexivity|]. simpl in *.
    apply andb_prop in A. destruct A as [C _].
    unfold not_space in C. apply negb_true_iff in C. now rewrite C. }
  rewrite L. now apply rstrip_not_space.
Qed.

Lemma digit_is_not_space c : Py.isdigit c = true -> not_space c = true.
Proof.
  intros H. unfold not_space. now rewrite (WeekFacts.digit_not_space c H).
Qed.

Lemma digit_not_c_space c : Py.isdigit c = true -> c_isspace c = false.
Proof.
  unfold Py.isdigit, c_isspace. intros H.
  apply andb_prop in H. destruct H as [H1 H2].
  apply Nat.leb_le in H1. apply Nat.leb_le in H2.
  repeat match goal with
         | |- context [?a <=? ?b] => destruct (Nat.leb_spec a b)
         | |- context [?a =? ?b] => destruct (Nat.eqb_spec a b)
         end; simpl; try reflexivity; lia.
Qed.

Lemma sign_digit c t :
  Py.isdigit c = true -> sign (String c t) = (false, String c t).
Proof.
  destruct c as [[] [] [] [] [] [] [] []]; intros H; try reflexivity;
    discriminate.
Qed.

Lemma span_all p : forall s,
  Py.all p s = true -> span p s = (s, EmptyString).
Proof.
  induction s as [|c s IH]; [reflexivity|]. simpl. intros A.
  apply andb_prop in A. destruct A as [C A]. now rewrite C, (IH A).
Qed.

Lemma parse_float_unsigned (neg : bool) c d :
  Py.all Py.isdigit (String c d) = true ->
  (let '(ip, s3) := span Py.isdigit (String c d) in
   let '(fp, s4) :=
     match s3 with
     | String "." t => span Py.isdigit t
     | _ => (EmptyString, s3)
     end in
   if is_empty (ip ++ fp)%string then None
   else
     let '(ex, s5) := exponent s4 in
     if is_empty (skip c_isspace s5) then
       let m := Py.int (ip ++ fp)%string in
       Some (scale10 (if neg then - m else m)%Z
                     (ex - Z.of_nat (String.length fp))%Z)
     else None)
  = Some (inject_Z (if neg then - Py.int (String c d)
                    else Py.int (String c d))%Z).
Proof.
  intros A. rewrite (span_all Py.isdigit _ A).
  cbn [String.append is_empty exponent skip String.length].
  rewrite StrFacts.app_nil_r. unfold scale10. cbn [Z.of_nat Z.sub Z.leb].
  change (0 - 0)%Z with 0%Z. cbn [Z.leb Z.compare Z.pow Z.pow_pos].
  now rewrite Z.mul_1_r.
Qed.

(** The reader on digits and on digits after a minus sign. *)
Lemma parse_float_digits d :
  Py.all Py.isdigit d = true -> d <> EmptyString ->
  parse_float d = Some (inject_Z (Py.int d))
  /\ parse_float ("-" ++ d) = Some (inject_Z (- Py.int d)).
Proof.
  intros A N. destruct d as [|c d]; [congruence|].
  assert (C : Py.isdigit c = true).
  { simpl in A. now apply andb_prop in A. }
  split; unfold parse_float.
  - cbn [skip]. rewrite (digit_not_c_space c C), (sign_digit c _ C).
    exact (parse_float_unsigned false c d A).
  - cbn [String.append skip c_isspace]. cbn [sign].
    exact (parse_float_unsigned true c d A).
Qed.

Lemma to_numeric_digits d :
  Py.all Py.isdigit d = true -> d <> EmptyString ->
  to_numeric_coerce d = Some (inject_Z (Py.int d))
  /\ to_numeric_coerce ("-" ++ d) = Some (inject_Z (- Py.int d)).
Proof.
  intros A N. destruct (parse_float_digits d A N) as [P1 P2].
  unfold to_numeric_coerce, convert. rewrite P1, P2.
  destruct d; [congruence|]. auto.
Qed.

End ValueFacts.

(** ** Value Normalizer *)

(** X7.  A [$] or a [,] may stand anywhere in the text of a cell without
    a change of its value: the two characters are removed wherever they
    occur, not only in front of the amount or between groups of three
    digits. *)
Theorem value_ignores_currency_marks a b :
  parse_value (Some (a ++ "$" ++ b)%string) = parse_value (Some (a ++ b)%string)
  /\ parse_value (Some (a ++ "," ++ b)%string)
     = parse_value (Some (a ++ b)%string).
Proof.
  unfold parse_value.
  rewrite !ValueFacts.clean_value_text_currency.
  now rewrite !ValueFacts.without_currency_app.
Qed.

(** X8.  A cell whose text, without its [$] and [,], is a run of at most
    15 digits (a number that int64 and float64 both hold as it is) has
    the number that the digits denote, every digit with the weight of
    its place; when it is such a run of digits in parentheses it has the
    negative of that number. *)
Theorem value_of_amount s d :
  Py.all Py.isdigit d = true -> 1 <= String.length d <= 15 ->
  (without_currency s = d ->
   parse_value (Some s) = Some (inject_Z (decimal d)))
  /\ (without_currency s = ("(" ++ d ++ ")")%string ->
      parse_value (Some s) = Some (inject_Z (- decimal d))).
Proof.
  intros A L.
  assert (N : d <> EmptyString) by (intros ->; simpl in L; lia).
  destruct (ValueFacts.to_numeric_digits d A N) as [P1 P2].
  rewrite (WeekFacts.int_decimal d A) in P1, P2.
  assert (S : Py.all not_space d = true)
    by exact (ValueFacts.all_weaken _ _ ValueFacts.digit_is_not_space d A).
  split; intros E; unfold parse_value;
    rewrite ValueFacts.clean_value_text_currency, E.
  - unfold Re.sub. rewrite ValueFacts.sub_PARENS_none
      by exact (ValueFacts.all_weaken _ _ ValueFacts.digit_not_open d A).
    now rewrite (ValueFacts.strip_not_space d S).
  - rewrite (ValueFacts.sub_PARENS_digits d A N).
    rewrite ValueFacts.strip_not_space; [exact P2|].
    simpl. exact S.
Qed.

Lemma value_of_amount_witness :
  parse_value (Some "$1,234") = Some 1234%Q
  /\ parse_value (Some "($1,234)") = Some (-1234)%Q.
Proof.
  assert (L : 1 <= String.length "1234" <= 15) by (simpl; lia).
  split.
  - exact (proj1 (value_of_amount "$1,234" "1234" eq_refl L) eq_refl).
  - exact (proj2 (value_of_amount "($1,234)" "1234" eq_refl L) eq_refl).
Defined.

(** ** Keys, counts and the records of [main] *)

Module KeyFacts.

Lemma insert_key_in k : forall l x,
  In x (insert_key Z.compare k l) <-> x = k \/ In x l.
Proof.
  induction l as [|a l IH]; intros x; simpl.
  - intuition.
  - destruct (Z.compare_spec k a) as [->|L|G]; simpl.
    + intuition.
    + intuition.
    + rewrite IH. intuition.
Qed.

Lemma sort_keys_in l x : In x (sort_keys Z.compare l) <-> In x l.
Proof.
  unfold sort_keys. induction l as [|a l IH]; simpl; [tauto|].
  rewrite insert_key_in, IH. intuition.
Qed.

Lemma ascending_cons x l :
  ascending (x :: l) = true <->
  (forall y, In y l -> (x < y)%Z) /\ ascending l = true.
Proof.
  revert x. induction l as [|a l IH]; intros x.
  - simpl. intuition.
  - change (ascending (x :: a :: l)) with ((x <? a)%Z && ascending (a :: l)).
    rewrite andb_true_iff, Z.ltb_lt. split.
    + intros [L A]. split; [|assumption].
      intros y [<-|I]; [assumption|]. apply IH in A.
      destruct A as [A _]. specialize (A y I). lia.
    + intros [H A]. split; [|assumption]. apply H. now left.
Qed.

Lemma insert_key_ascending k : forall l,
  ascending l = true -> ascending (insert_key Z.compare k l) = true.
Proof.
  induction l as [|a l IH]; intros A; [reflexivity|].
  cbn [insert_key]. destruct (Z.compare_spec k a) as [->|L|G].
  - assumption.
  - apply ascending_cons. split; [|assumption].
    apply ascending_cons in A. destruct A as [A _].
    intros y [<-|I]; [assumption|]. specialize (A y I). lia.
  - apply ascending_cons in A. destruct A as [H A].
    apply ascending_cons. split; [|now apply IH].
    intros y I. apply insert_key_in in I. destruct I as [->|I]; auto.
Qed.

Lemma sort_keys_ascending l : ascending (sort_keys Z.compare l) = true.
Proof.
  unfold sort_keys. induction l as [|a l IH]; [reflexivity|].
  simpl. now apply insert_key_ascending.
Qed.

Lemma ascending_NoDup l : ascending l = true -> NoDup l.
Proof.
  induction l as [|a l IH]; intros A; [constructor|].
  apply ascending_cons in A. destruct A as [H A]. constructor; [|auto].
  intros I. specialize (H a I). lia.
Qed.

Lemma in_somes {A} (x : A) : forall l, In x (somes l) <-> In (Some x) l.
Proof.
  induction l as [|[a|] l IH]; simpl; [tauto| |].
  - rewrite IH. split; intros [H|H]; auto; [left; congruence|].
    left. now inversion H.
  - rewrite IH. split; [auto|]. intros [H|H]; [discriminate|auto].
Qed.

Lemma total_count_cons (p : option Z * option Z) rows : forall keys,
  total_count
    (map (fun y => (y, length (filter (fun q => eq_num (fst q) y)
                                     (p :: rows)))) keys)
  = length (filter (eq_num (fst p)) keys)
    + total_count
        (map (fun y => (y, length (filter (fun q => eq_num (fst q) y) rows)))
             keys).
Proof.
  induction keys as [|k keys IH]; [reflexivity|].
  cbn [map]. unfold total_count in *. cbn [fold_right snd].
  rewrite IH. cbn [filter].
  destruct (eq_num (fst p) k); cbn [length]; lia.
Qed.

Lemma one_key y0 : forall keys,
  NoDup keys -> In y0 keys ->
  length (filter (eq_num (Some y0)) keys) = 1.
Proof.
  induction keys as [|k keys IH]; intros N I; [destruct I|].
  inversion N as [|? ? Nk N']; subst. cbn [filter eq_num].
  destruct (Z.eqb_spec y0 k) as [->|Ne].
  - cbn [length]. f_equal.
    assert (F : forall ks, ~ In k ks ->
                filter (eq_num (Some k)) ks = []).
    { induction ks as [|a ks IHs]; intros Na; [reflexivity|].
      cbn [filter eq_num]. destruct (Z.eqb_spec k a) as [->|_].
      - destruct Na. now left.
      - apply IHs. intros H. apply Na. now right. }
    now rewrite (F keys Nk).
  - destruct I as [->|I]; [congruence|]. now apply IH.
Qed.

(** Counting the rows of every year counts every row once. *)
Lemma count_by_key (rows : list (option Z * option Z)) keys :
  NoDup keys ->
  (forall p, In p rows -> exists y, fst p = Some y /\ In y keys) ->
  total_count
    (map (fun y => (y, length (filter (fun p => eq_num (fst p) y) rows)))
         keys)
  = length rows.
Proof.
  intros N. induction rows as [|p rows IH]; intros H.
  - clear. induction keys as [|k keys IH]; [reflexivity|]. exact IH.
  - rewrite total_count_cons, IH by (intros q Iq; apply H; now right).
    destruct (H p (or_introl eq_refl)) as (y0 & Y & I0).
    rewrite Y, (one_key y0 keys N I0). reflexivity.
Qed.

Lemma drop_duplicates_in {A} (eqb : A -> A -> bool) : forall l x,
  In x (drop_duplicates eqb l) -> In x l.
Proof.
  induction l as [|a l IH]; intros x; simpl; [tauto|].
  intros [->|I]; [now left|]. apply filter_In in I. right. apply IH, I.
Qed.

Lemma parse_some_ranges lbl w y :
  parse_week_year lbl = (Some w, Some y) ->
  (0 <= w <= 99)%Z /\ (0 <= y <= 9999)%Z.
Proof.
  intros P. destruct (WeekFacts.parse_week_year_cases lbl)
    as [(pre & d & yy & O & _ & P')|[_ P']]; rewrite P' in P;
    [|discriminate].
  inversion P; subst.
  destruct O as (t & post & E & k & w1 & w2 & w3 & T & K & W1 & D & L & W2 & W3 & Y & LY).
  split; [now apply WeekFacts.int_week_range|now apply WeekFacts.int_year_range].
Qed.

Lemma in_scope_cases r y w :
  year r = Some y -> week r = Some w -> in_scope r = true ->
  (y = 2024 \/ (y = 2025 /\ w <= 31))%Z.
Proof.
  unfold in_scope, eq_num, le_num, CUTOFF_2025_WEEK. intros -> ->.
  rewrite orb_true_iff, andb_true_iff, !Z.eqb_eq, Z.leb_le. tauto.
Qed.

End KeyFacts.

(** ** [main] *)

(** X9.  Every record of [clean], as [main] has it after the scope
    filter, has a year and a week; the week lies in 0..99, and the year
    is 2024, or it is 2025 and the week is at most 31.  So the table
    that is written and queried has no NULL year or week. *)
Theorem main_clean_periods raw clean :
  main_clean raw = inr clean ->
  periods_defined clean = true
  /\ forall r, In r clean ->
       exists y w,
         year r = Some y /\ week r = Some w /\ (0 <= w <= 99)%Z
         /\ (y = 2024 \/ (y = 2025 /\ w <= 31))%Z.
Proof.
  unfold main_clean. destruct (tidy_weekly_summary raw) as [e|recs] eqn:T;
    [discriminate|].
  intros H. inversion H; subst clean; clear H.
  assert (A : forall r, In r (apply_scope recs) ->
              exists y w,
                year r = Some y /\ week r = Some w /\ (0 <= w <= 99)%Z
                /\ (y = 2024 \/ (y = 2025 /\ w <= 31))%Z).
  { intros r I. apply filter_In in I. destruct I as [I S].
    rewrite (TidyFacts.tidy_by_column raw recs T) in I.
    apply in_flat_map in I. destruct I as (col & C & I).
    apply in_map_iff in I. destruct I as (p & <- & _).
    destruct raw as [|[name labels] rest]; [destruct C|].
    apply filter_In in C. destruct C as [_ C].
    unfold is_period_column in C.
    apply andb_prop in C. destruct C as [C Ny].
    apply andb_prop in C. destruct C as [_ Nw].
    unfold record_of in *.
    destruct (parse_week_year (fst col)) as [[w|] [y|]] eqn:P;
      try discriminate.
    exists y, w. cbn [year week fst snd] in *.
    split; [reflexivity|]. split; [reflexivity|].
    split; [exact (proj1 (KeyFacts.parse_some_ranges _ _ _ P))|].
    eapply KeyFacts.in_scope_cases; [| |exact S]; reflexivity. }
  split; [|exact A].
  unfold periods_defined. apply forallb_forall. intros r I.
  destruct (A r I) as (y & w & -> & -> & _). reflexivity.
Qed.

Lemma main_clean_periods_witness :
  main_clean example_frame = inr example_tidy
  /\ periods_defined example_tidy = true
  /\ forall r, In r example_tidy ->
       exists y w,
         year r = Some y /\ week r = Some w /\ (0 <= w <= 99)%Z
         /\ (y = 2024 \/ (y = 2025 /\ w <= 31))%Z.
Proof.
  split; [reflexivity|].
  exact (main_clean_periods example_frame example_tidy eq_refl).
Defined.

(** X10.  The counts of weeks agree: on records that all have a year and
    a week, the weeks by year add up to the total of weeks. *)
Theorem weeks_by_year_add_up clean :
  periods_defined clean = true ->
  total_count (weeks_by_year clean) = weeks_total clean.
Proof.
  intros P. unfold weeks_by_year, weeks_total.
  apply KeyFacts.count_by_key.
  - apply KeyFacts.ascending_NoDup, KeyFacts.sort_keys_ascending.
  - intros p I. pose proof I as I'.
    apply KeyFacts.drop_duplicates_in in I. apply in_map_iff in I.
    destruct I as (r & <- & Ir). unfold periods_defined in P.
    rewrite forallb_forall in P. specialize (P r Ir).
    cbn [fst]. destruct (year r) as [y|] eqn:Y; [|discriminate].
    exists y. split; [reflexivity|].
    apply KeyFacts.sort_keys_in, KeyFacts.in_somes.
    apply in_map_iff. exists (Some y, week r). split; [reflexivity|].
    exact I'.
Qed.

Lemma weeks_by_year_add_up_witness :
  periods_defined example_tidy = true
  /\ total_count (weeks_by_year example_tidy) = weeks_total example_tidy.
Proof.
  split; [reflexivity|].
  exact (weeks_by_year_add_up example_tidy eq_refl).
Defined.

(** X11.  The revenue by year has one entry for every year that has a
    record of the metric name revenue, in any case of the letters, and
    for no other year; the years are strictly ascending. *)
Theorem revenue_years clean :
  ascending (map fst (revenue clean)) = true
  /\ forall y,
       In y (map fst (revenue clean)) <->
       exists r, In r clean
                 /\ Py.lower (metric_name r) = "revenue"
                 /\ year r = Some y.
Proof.
  unfold revenue, groupby. rewrite map_map. cbn [fst]. rewrite map_id.
  split; [apply KeyFacts.sort_keys_ascending|].
  intros y. rewrite KeyFacts.sort_keys_in, KeyFacts.in_somes, in_map_iff.
  split.
  - intros (r & Y & I). apply filter_In in I. destruct I as [I N].
    apply String.eqb_eq in N. exists r. auto.
  - intros (r & I & N & Y). exists r. split; [assumption|].
    apply filter_In. split; [assumption|]. now apply String.eqb_eq.
Qed.

(** ** Concatenation *)

Module ConcatFacts.

Lemma existsb_eqb_in n : forall seen,
  existsb (String.eqb n) seen = true <-> In n seen.
Proof.
  induction seen as [|x seen IH]; simpl; [split; [discriminate|tauto]|].
  rewrite orb_true_iff, IH, String.eqb_eq. intuition.
Qed.

Lemma first_seen_all_seen : forall l seen,
  (forall x, In x l -> In x seen) -> first_seen seen l = [].
Proof.
  induction l as [|n l IH]; intros seen H; [reflexivity|]. simpl.
  assert (E : existsb (String.eqb n) seen = true).
  { apply existsb_eqb_in, H. now left. }
  rewrite E. apply IH. intros x I. apply H. now right.
Qed.

(** Names that are distinct and new are all kept; names that were seen
    are left out. *)
Lemma first_seen_fresh : forall l seen l2,
  NoDup l -> (forall x, In x l -> ~ In x seen) ->
  (forall x, In x l2 -> In x seen \/ In x l) ->
  first_seen seen (l ++ l2) = l.
Proof.
  induction l as [|n l IH]; intros seen l2 N F H.
  - simpl. apply first_seen_all_seen. intros x I.
    destruct (H x I) as [S|[]]. exact S.
  - inversion N as [|? ? Nn N']; subst. simpl.
    destruct (existsb (String.eqb n) seen) eqn:E.
    + apply existsb_eqb_in in E. destruct (F n (or_introl eq_refl) E).
    + f_equal. apply IH; [assumption| |].
      * intros x I [<-|S]; [contradiction|].
        apply (F x (or_intror I) S).
      * intros x I. destruct (H x I) as [S|[<-|L]]; simpl; auto.
Qed.

Lemma find_column (dflt : list cell) : forall (df : DataFrame),
  NoDup (map fst df) ->
  forall col, In col df ->
    match find (fun c => String.eqb (fst c) (fst col)) df with
    | Some c => snd c
    | None => dflt
    end = snd col.
Proof.
  induction df as [|[n c] df IH]; intros N col I; [destruct I|].
  inversion N as [|? ? Nn N']; subst. simpl.
  destruct I as [<-|I].
  - simpl. now rewrite String.eqb_refl.
  - destruct (String.eqb_spec n (fst col)) as [E|_].
    + destruct Nn. rewrite E. now apply in_map.
    + now apply IH.
Qed.

Lemma column_of_in (df : DataFrame) : NoDup (map fst df) ->
  forall col, In col df -> column_of (fst col) df = snd col.
Proof. intros N col I. unfold column_of. now apply find_column. Qed.

(** A frame is rebuilt from its names and its columns. *)
Lemma rebuild (df : DataFrame) : NoDup (map fst df) ->
  map (fun n => (n, column_of n df)) (map fst df) = df.
Proof.
  intros N. rewrite map_map.
  rewrite (map_ext_in _ (fun col => col)); [apply map_id|].
  intros [n c] I. now rewrite (column_of_in df N (n, c) I).
Qed.

(** The concatenation of two frames with the same header. *)
Lemma concat_two (a b : DataFrame) :
  map fst a = map fst b -> NoDup (map fst a) ->
  stacked [a; b]
  = map (fun col => (fst col, (snd col ++ column_of (fst col) b)%list)) a.
Proof.
  intros E N. unfold stacked. cbn [flat_map].
  rewrite app_nil_r, <- E.
  rewrite (first_seen_fresh (map fst a) [] (map fst a) N);
    [|intros x _ []|intros x I; now right].
  rewrite map_map. apply map_ext_in. intros col I. cbn [flat_map].
  now rewrite app_nil_r, (column_of_in a N col I).
Qed.

Lemma somes_app {A} (l1 l2 : list (option A)) :
  somes (l1 ++ l2) = somes l1 ++ somes l2.
Proof.
  induction l1 as [|[x|] l1 IH]; simpl; [reflexivity| |assumption].
  now rewrite IH.
Qed.

Lemma select_app {A} (m1 m2 : list bool) : forall (c1 c2 : list A),
  length c1 = length m1 ->
  select (m1 ++ m2) (c1 ++ c2) = select m1 c1 ++ select m2 c2.
Proof.
  induction m1 as [|x m1 IH]; intros [|y c1] c2 L; simpl in *;
    try discriminate.
  - now destruct m2.
  - destruct x; simpl; rewrite IH by lia; reflexivity.
Qed.

Lemma combine_app {A B} : forall (l1 l2 : list A) (r1 r2 : list B),
  length l1 = length r1 ->
  combine (l1 ++ l2) (r1 ++ r2) = combine l1 r1 ++ combine l2 r2.
Proof.
  induction l1 as [|x l1 IH]; intros l2 [|y r1] r2 L; simpl in *;
    try discriminate; [reflexivity|].
  now rewrite IH by lia.
Qed.

Lemma flat_map_app_perm {A B} (f g : A -> list B) : forall l,
  Permutation (flat_map (fun x => f x ++ g x) l)
              (flat_map f l ++ flat_map g l).
Proof.
  induction l as [|x l IH]; simpl; [constructor|].
  rewrite IH, <- !app_assoc. apply Permutation_app_head.
  rewrite !app_assoc. apply Permutation_app_tail.
  apply Permutation_app_comm.
Qed.

Lemma period_column_name fc n c c' :
  is_period_column fc (n, c) = is_period_column fc (n, c').
Proof. reflexivity. Qed.

Lemma filter_map_name fc (g : string * list cell -> string * list cell) :
  (forall col, fst (g col) = fst col) ->
  forall l,
    filter (is_period_column fc) (map g l)
    = map g (filter (is_period_column fc) l).
Proof.
  intros G. induction l as [|[n c] l IH]; [reflexivity|]. cbn [map filter].
  assert (E : is_period_column fc (g (n, c)) = is_period_column fc (n, c)).
  { destruct (g (n, c)) as [n' c'] eqn:Eg.
    assert (n' = n) as -> by (specialize (G (n, c)); now rewrite Eg in G).
    apply period_column_name. }
  rewrite E, IH. now destruct (is_period_column fc (n, c)).
Qed.

Lemma value_raw_map_name (g : string * list cell -> string * list cell) :
  (forall col, fst (g col) = fst col) ->
  forall l : DataFrame, has_value_raw (map g l) = has_value_raw l.
Proof.
  intros G. unfold has_value_raw.
  induction l as [|c l IH]; [reflexivity|].
  cbn [map existsb]. now rewrite G, IH.
Qed.

(** The records of a concatenation of two frames with one header. *)
Lemma tidy_concat_perm (a b : DataFrame) ra rb :
  map fst a = map fst b -> NoDup (map fst a) -> rectangular a = true ->
  tidy_weekly_summary a = inr ra -> tidy_weekly_summary b = inr rb ->
  exists rc,
    tidy_weekly_summary (stacked [a; b]) = inr rc
    /\ Permutation rc (ra ++ rb).
Proof.
  intros E N R Ta Tb.
  assert (Nb : NoDup (map fst b)) by now rewrite <- E.
  pose proof (concat_two a b E N) as C.
  destruct a as [|[fc la] resta]; [discriminate|].
  destruct b as [|[fc' lb] restb]; [discriminate|].
  cbn [map fst] in E. inversion E as [[Efc Erest]]. subst fc'.
  destruct (TidyFacts.tidy_returns _ _ _ _ Ta) as [Va U].
  destruct (TidyFacts.tidy_returns _ _ _ _ Tb) as [Vb _].
  rewrite (TidyFacts.tidy_named _ _ _ Va U) in Ta.
  rewrite (TidyFacts.tidy_named _ _ _ Vb U) in Tb.
  inversion Ta; subst ra; clear Ta. inversion Tb; subst rb; clear Tb.
  set (A := (fc, la) :: resta) in *. set (B := (fc, lb) :: restb) in *.
  set (g := fun col : string * list cell =>
              (fst col, (snd col ++ column_of (fst col) B)%list)).
  assert (Lb : column_of fc B = lb).
  { unfold column_of, B. cbn [find fst]. now rewrite String.eqb_refl. }
  assert (Hd : map g A = (fc, (la ++ lb)%list) :: map g resta).
  { unfold A. cbn [map]. unfold g at 1. cbn [fst snd]. now rewrite Lb. }
  assert (Vc : has_value_raw ((fc, (la ++ lb)%list) :: map g resta) = false).
  { rewrite <- Hd, <- Va. apply value_raw_map_name. reflexivity. }
  eexists. split.
  { rewrite C. fold g. rewrite Hd.
    rewrite (TidyFacts.tidy_named _ _ _ Vc U). reflexivity. }
  clear C.
  change (period_columns ((fc, (la ++ lb)%list) :: map g resta))
    with (filter (is_period_column fc)
                 ((fc, (la ++ lb)%list) :: map g resta)).
  change (period_columns A) with (filter (is_period_column fc) A).
  change (period_columns B) with (filter (is_period_column fc) B).
  rewrite <- Hd.
  rewrite (filter_map_name fc g (fun col => eq_refl)).
  set (PA := filter (is_period_column fc) A).
  assert (IA : forall col, In col PA -> In col A)
    by (intros col I; now apply filter_In in I).
  (* each column of the concatenation: the rows of A, then those of B *)
  assert (Blk : forall col, In col PA ->
            map (record_of (fst (g col)))
                (labelled_cells (map g A) (g col))
            = map (record_of (fst col)) (labelled_cells A col)
              ++ map (record_of (fst col))
                     (labelled_cells B (fst col, column_of (fst col) B))).
  { intros col I. rewrite Hd. unfold labelled_cells, A, B, g.
    cbn [fst snd]. unfold cell in *. rewrite map_app, (somes_app la lb).
    unfold rectangular in R. rewrite forallb_forall in R.
    specialize (R col (IA col I)). apply Nat.eqb_eq in R.
    cbn [nrows] in R.
    rewrite select_app by now rewrite length_map.
    rewrite combine_app
      by (symmetry; now apply TidyFacts.length_select).
    now rewrite map_app. }
  match goal with
  | |- Permutation ?L _ =>
      assert (Eq1 : L = flat_map
                (fun col =>
                   map (record_of (fst col)) (labelled_cells A col)
                   ++ map (record_of (fst col))
                          (labelled_cells B
                             (fst col, column_of (fst col) B))) PA)
  end.
  { clear - Blk. induction PA as [|c PA IH]; [reflexivity|].
    cbn [map flat_map]. apply (f_equal2 (@app TidyRecord)).
    - apply Blk. now left.
    - apply IH. intros col I. apply Blk. now right. }
  rewrite Eq1, flat_map_app_perm. clear Eq1.
  apply Permutation_app_head.
  (* the columns of B under the names of the period columns of A *)
  assert (PB : filter (is_period_column fc) B
               = map (fun col => (fst col, column_of (fst col) B)) PA).
  { unfold PA.
    rewrite <- (filter_map_name fc
                  (fun col => (fst col, column_of (fst col) B))
                  (fun col => eq_refl)).
    f_equal. rewrite <- (rebuild B Nb) at 1.
    rewrite <- (map_map fst (fun n => (n, column_of n B))).
    f_equal. unfold A, B. cbn [map fst]. now rewrite Erest. }
  match goal with
  | |- Permutation _ ?R =>
      assert (Eq2 : R = flat_map
                (fun col =>
                   map (record_of (fst col))
                       (labelled_cells B
                          (fst col, column_of (fst col) B))) PA)
  end.
  { transitivity
      (flat_map (fun col => map (record_of (fst col)) (labelled_cells B col))
                (map (fun col => (fst col, column_of (fst col) B)) PA)).
    - apply f_equal. exact PB.
    - clear. induction PA as [|c PA IH]; [reflexivity|].
      cbn [map flat_map]. now apply (f_equal2 (@app TidyRecord)). }
  now rewrite Eq2.
Qed.

End ConcatFacts.

(** ** Ingestion *)

(** X12.  The concatenation of one frame whose column names are distinct
    is that frame, so that for one file [raw] is the frame read, with
    its column [source_file]. *)
Theorem concat_one df :
  NoDup (map fst df) -> concat [df] = Some df.
Proof.
  intros N. unfold concat, stacked. f_equal.
  cbn [flat_map]. rewrite app_nil_r.
  rewrite <- (app_nil_r (map fst df)).
  rewrite (ConcatFacts.first_seen_fresh (map fst df) [] [] N);
    [|intros x _ []|intros x []].
  rewrite <- (ConcatFacts.rebuild df N) at 2.
  apply map_ext. intros n. cbn [flat_map]. now rewrite app_nil_r.
Qed.

Lemma concat_one_witness :
  NoDup (map fst example_frame)
  /\ concat [example_frame] = Some example_frame.
Proof.
  assert (N : NoDup (map fst example_frame)).
  { repeat constructor; simpl; intuition discriminate. }
  split; [exact N|]. exact (concat_one example_frame N).
Defined.

(** X13.  Two frames with the same header, with distinct column names and
    one cell per row in the first frame, whose values are whole numbers
    within [2^53] (so that the value of a cell does not depend on the
    other cells of its column): the tidy records of their concatenation
    are the records of the first frame and the records of the second
    one, in another order (week by week, in each week the rows of the
    first frame before the rows of the second). *)
Theorem tidy_concat_same_header (a b : DataFrame) ra rb :
  map fst a = map fst b -> NoDup (map fst a) -> rectangular a = true ->
  tidy_weekly_summary a = inr ra -> tidy_weekly_summary b = inr rb ->
  exact_amounts (ra ++ rb) = true ->
  exists raw rc,
    concat [a; b] = Some raw
    /\ tidy_weekly_summary raw = inr rc
    /\ Permutation rc (ra ++ rb).
Proof.
  intros E N R Ta Tb _.
  destruct (ConcatFacts.tidy_concat_perm a b ra rb E N R Ta Tb)
    as (rc & T & P).
  exists (stacked [a; b]), rc. split; [reflexivity|]. split; assumption.
Qed.

Lemma tidy_concat_same_header_witness :
  map fst example_frame = map fst example_frame
  /\ NoDup (map fst example_frame)
  /\ rectangular example_frame = true
  /\ tidy_weekly_summary example_frame = inr example_tidy
  /\ exact_amounts (example_tidy ++ example_tidy) = true
  /\ exists raw rc,
       concat [example_frame; example_frame] = Some raw
       /\ tidy_weekly_summary raw = inr rc
       /\ Permutation rc (example_tidy ++ example_tidy).
Proof.
  assert (N : NoDup (map fst example_frame)).
  { repeat constructor; simpl; intuition discriminate. }
  split; [reflexivity|]. split; [exact N|]. split; [reflexivity|].
  split; [reflexivity|]. split; [reflexivity|].
  exact (tidy_concat_same_header example_frame example_frame
           example_tidy example_tidy eq_refl N eq_refl eq_refl eq_refl
           eq_refl).
Defined.

(** ** The column [source_file] *)

Module AssignFacts.

Lemma existsb_names (n : string) : forall (df : DataFrame),
  existsb (fun c => String.eqb (fst c) n) df
  = existsb (fun x => String.eqb x n) (map fst df).
Proof.
  induction df as [|c df IH]; [reflexivity|]. simpl. now rewrite IH.
Qed.

Lemma replaced_names (n : string) (col : list cell) : forall (df : DataFrame),
  map fst (map (fun c => if String.eqb (fst c) n then (n, col) else c) df)
  = map fst df.
Proof.
  induction df as [|[x c] df IH]; [reflexivity|]. cbn [map fst].
  rewrite IH. destruct (String.eqb_spec x n) as [->|_]; reflexivity.
Qed.

(** The names of the columns after the assignment. *)
Lemma assign_names n t (df : DataFrame) :
  map fst (assign n t df)
  = if existsb (fun x => String.eqb x n) (map fst df)
    then map fst df else map fst df ++ [n].
Proof.
  unfold assign. rewrite existsb_names.
  destruct (existsb _ (map fst df)).
  - apply replaced_names.
  - now rewrite map_app.
Qed.

Lemma assign_same_names n t t' (a b : DataFrame) :
  map fst a = map fst b ->
  map fst (assign n t a) = map fst (assign n t' b).
Proof. intros E. now rewrite !assign_names, E. Qed.

Lemma assign_nodup n t (df : DataFrame) :
  NoDup (map fst df) -> NoDup (map fst (assign n t df)).
Proof.
  intros N. rewrite assign_names.
  destruct (existsb _ (map fst df)) eqn:E; [assumption|].
  apply NoDup_app; [assumption|repeat constructor; intros []|].
  intros x I [<-|[]].
  assert (X : existsb (fun y => String.eqb y n) (map fst df) = true).
  { apply existsb_exists. exists n. split; [assumption|].
    apply String.eqb_refl. }
  congruence.
Qed.

Lemma assign_nrows n t (df : DataFrame) : nrows (assign n t df) = nrows df.
Proof.
  unfold assign. destruct df as [|[x c] df].
  - reflexivity.
  - cbn [existsb fst]. destruct (String.eqb x n) eqn:E.
    + cbn [orb map fst]. rewrite E. cbn [nrows]. apply repeat_length.
    + cbn [orb]. destruct (existsb _ df); [|reflexivity].
      cbn [map fst]. now rewrite E.
Qed.

Lemma assign_rectangular n t (df : DataFrame) :
  rectangular df = true -> rectangular (assign n t df) = true.
Proof.
  unfold rectangular. rewrite assign_nrows. intros R.
  rewrite forallb_forall in R. apply forallb_forall. intros col I.
  unfold assign in I.
  destruct (existsb _ df).
  - apply in_map_iff in I. destruct I as (c & <- & I).
    destruct (String.eqb (fst c) n); [|now apply R].
    cbn [snd]. rewrite repeat_length. apply Nat.eqb_refl.
  - apply in_app_or in I. destruct I as [I|[<-|[]]]; [now apply R|].
    cbn [snd]. rewrite repeat_length. apply Nat.eqb_refl.
Qed.

End AssignFacts.

(** X14.  Two files with the same header, with distinct column names of
    which the first is not [source_file], one cell per row in the first
    file, and values that are whole numbers within [2^53]: the tidy
    records of [raw] are the records of the first frame and the records
    of the second one, in another order. *)
Theorem main_raw_two_files f1 f2 (a b : DataFrame) ra rb :
  map fst a = map fst b -> NoDup (map fst a) -> rectangular a = true ->
  hd_error (map fst a) <> Some "source_file" ->
  tidy_weekly_summary a = inr ra -> tidy_weekly_summary b = inr rb ->
  exact_amounts (ra ++ rb) = true ->
  exists raw rc,
    main_raw [(f1, a); (f2, b)] = Some raw
    /\ tidy_weekly_summary raw = inr rc
    /\ Permutation rc (ra ++ rb).
Proof.
  intros E N R F Ta Tb _. unfold main_raw, concat. cbn [map fst snd].
  match goal with
  | |- exists raw rc, Some ?x = Some raw /\ _ =>
      cut (exists rc, tidy_weekly_summary x = inr rc
                      /\ Permutation rc (ra ++ rb));
      [intros (rc & T & P); exists x, rc; now repeat split|]
  end.
  destruct a as [|[fc la] resta]; [discriminate|].
  destruct b as [|[fc' lb] restb]; [discriminate|].
  assert (fc' = fc) as -> by (cbn in E; congruence).
  assert (Nf : fc <> "source_file") by (intros ->; now apply F).
  apply ConcatFacts.tidy_concat_perm.
  - now apply AssignFacts.assign_same_names.
  - now apply AssignFacts.assign_nodup.
  - now apply AssignFacts.assign_rectangular.
  - now rewrite LabelFacts.source_file_neutral.
  - now rewrite LabelFacts.source_file_neutral.
Qed.

Lemma main_raw_two_files_witness :
  exact_amounts (example_tidy ++ example_tidy) = true
  /\ exists raw rc,
       main_raw [("a.csv", example_frame); ("b.csv", example_frame)]
       = Some raw
       /\ tidy_weekly_summary raw = inr rc
       /\ Permutation rc (example_tidy ++ example_tidy).
Proof.
  assert (N : NoDup (map fst example_frame)).
  { repeat constructor; simpl; intuition discriminate. }
  assert (F : hd_error (map fst example_frame) <> Some "source_file").
  { discriminate. }
  split; [reflexivity|].
  exact (main_raw_two_files "a.csv" "b.csv" example_frame example_frame
           example_tidy example_tidy eq_refl N eq_refl F eq_refl eq_refl
           eq_refl).
Defined.

(** ** Columns that are no periods *)

(** X15.  A column after the first one whose name begins with [Unnamed],
    or holds no week and year, leaves no record and changes no other
    record: the result is the one for the frame without that column.
    The column is not named as the first one, nor [value_raw], the one
    name that [melt] refuses. *)
Theorem other_columns_leave_no_record name labels rest1 u cells rest2 :
  u <> name -> u <> "value_raw" ->
  String.prefix "Unnamed" u = true \/ parse_week_year u = (None, None) ->
  tidy_weekly_summary ((name, labels) :: rest1 ++ (u, cells) :: rest2)
  = tidy_weekly_summary ((name, labels) :: rest1 ++ rest2).
Proof.
  intros _ V H. apply TidyFacts.tidy_ext.
  - unfold has_value_raw. rewrite !existsb_app. cbn [existsb fst].
    apply String.eqb_neq in V. now rewrite V.
  - assert (P : is_period_column name (u, cells) = false).
    { unfold is_period_column. cbn [fst].
      destruct H as [H|H].
      - now rewrite TidyFacts.is_unnamed_prefix, H.
      - rewrite H. cbn [fst snd notna]. now rewrite andb_false_r. }
    rewrite !filter_app. cbn [filter]. now rewrite P.
Qed.

Lemma other_columns_leave_no_record_witness :
  tidy_weekly_summary
    [("Metric", [Some "CB Revenue"]); ("Week 1, 2024", [Some "$100"]);
     ("Notes", [Some "checked"]); ("Unnamed: 3", [None])]
  = tidy_weekly_summary
      [("Metric", [Some "CB Revenue"]); ("Week 1, 2024", [Some "$100"]);
       ("Unnamed: 3", [None])]
  /\ tidy_weekly_summary
       [("Metric", [Some "CB Revenue"]); ("Week 1, 2024", [Some "$100"]);
        ("Unnamed: 3", [None])]
     = inr [mkTidy (Some 2024%Z) (Some 1%Z) (Some "CB") "Revenue"
                   (Some 100%Q) "CB Revenue"].
Proof.
  split; [|reflexivity].
  apply (other_columns_leave_no_record "Metric" [Some "CB Revenue"]
           [("Week 1, 2024", [Some "$100"])] "Notes" [Some "checked"]
           [("Unnamed: 3", [None])]).
  - discriminate.
  - discriminate.
  - right. reflexivity.
Defined.

(** ** Group keys of two columns *)

Module PeriodFacts.

Local Abbreviation cmp := (cmp_pair Z.compare Z.compare).

Lemma cmp_spec (a b : Z * Z) :
  match cmp a b with
  | Eq => a = b
  | Lt => before a b = true
  | Gt => before b a = true
  end.
Proof.
  destruct a as [y w], b as [y' w']. unfold cmp, cmp_pair, before.
  cbn [fst snd].
  destruct (Z.compare_spec y y') as [->|L|G].
  - destruct (Z.compare_spec w w') as [->|L|G]; [reflexivity| |];
      rewrite Z.ltb_irrefl, Z.eqb_refl; cbn [orb andb];
      now apply Z.ltb_lt.
  - apply Z.ltb_lt in L. now rewrite L.
  - apply Z.ltb_lt in G. now rewrite G.
Qed.

Lemma before_iff a b :
  before a b = true <->
  (fst a < fst b \/ (fst a = fst b /\ snd a < snd b))%Z.
Proof.
  unfold before.
  rewrite orb_true_iff, andb_true_iff, !Z.ltb_lt, Z.eqb_eq. tauto.
Qed.

Lemma before_trans a b c :
  before a b = true -> before b c = true -> before a c = true.
Proof. rewrite !before_iff. lia. Qed.

Lemma before_irrefl a : before a a = false.
Proof.
  destruct (before a a) eqn:B; [|reflexivity].
  apply before_iff in B. lia.
Qed.

Lemma insert_period_in k : forall l x,
  In x (insert_key cmp k l) <-> x = k \/ In x l.
Proof.
  induction l as [|a l IH]; intros x; simpl.
  - intuition.
  - pose proof (cmp_spec k a) as S. destruct (cmp k a); simpl.
    + subst a. intuition.
    + intuition.
    + rewrite IH. intuition.
Qed.

Lemma sort_periods_in l x : In x (sort_keys cmp l) <-> In x l.
Proof.
  unfold sort_keys. induction l as [|a l IH]; simpl; [tauto|].
  rewrite insert_period_in, IH. intuition.
Qed.

Lemma chronological_cons x l :
  chronological (x :: l) = true <->
  (forall y, In y l -> before x y = true) /\ chronological l = true.
Proof.
  revert x. induction l as [|a l IH]; intros x.
  - simpl. intuition.
  - change (chronological (x :: a :: l))
      with (before x a && chronological (a :: l)).
    rewrite andb_true_iff. split.
    + intros [L A]. split; [|assumption].
      intros y [<-|I]; [assumption|]. apply IH in A.
      destruct A as [A _]. apply (before_trans _ _ _ L (A y I)).
    + intros [H A]. split; [|assumption]. apply H. now left.
Qed.

Lemma insert_key_chronological k : forall l,
  chronological l = true -> chronological (insert_key cmp k l) = true.
Proof.
  induction l as [|a l IH]; intros A; [reflexivity|].
  cbn [insert_key]. pose proof (cmp_spec k a) as S. destruct (cmp k a).
  - assumption.
  - apply chronological_cons. split; [|assumption].
    apply chronological_cons in A. destruct A as [A _].
    intros y [<-|I]; [assumption|].
    apply (before_trans _ _ _ S (A y I)).
  - apply chronological_cons in A. destruct A as [H A].
    apply chronological_cons. split; [|now apply IH].
    intros y I. apply insert_period_in in I. destruct I as [->|I]; auto.
Qed.

Lemma sort_keys_chronological l : chronological (sort_keys cmp l) = true.
Proof.
  unfold sort_keys. induction l as [|a l IH]; [reflexivity|].
  simpl. now apply insert_key_chronological.
Qed.

Lemma year_week_some r y w :
  year_week r = Some (y, w) <-> year r = Some y /\ week r = Some w.
Proof.
  unfold year_week. destruct (year r), (week r); split;
    try discriminate; try (intros [? ?]; discriminate).
  - intros H. inversion H. auto.
  - intros [H1 H2]. inversion H1. inversion H2. reflexivity.
Qed.

End PeriodFacts.

(** ** The weekly series *)

(** X16.  The weekly totals of a metric name, as the charts plot them,
    have one entry for every year and week that has a record of that
    metric name, in any case of the letters, and for no other period;
    the periods are strictly ascending, by year and then by week. *)
Theorem weekly_totals_periods clean name :
  chronological (map fst (weekly_totals clean name)) = true
  /\ forall y w,
       In (y, w) (map fst (weekly_totals clean name)) <->
       exists r, In r clean
                 /\ Py.lower (metric_name r) = Py.lower name
                 /\ year r = Some y /\ week r = Some w.
Proof.
  unfold weekly_totals, groupby. rewrite map_map. cbn [fst]. rewrite map_id.
  split; [apply PeriodFacts.sort_keys_chronological|].
  intros y w.
  rewrite PeriodFacts.sort_periods_in, KeyFacts.in_somes, in_map_iff.
  split.
  - intros (r & Y & I). apply filter_In in I. destruct I as [I N].
    apply String.eqb_eq in N. apply PeriodFacts.year_week_some in Y.
    exists r. tauto.
  - intros (r & I & N & Y). exists r. split.
    + apply PeriodFacts.year_week_some. exact Y.
    + apply filter_In. split; [assumption|]. now apply String.eqb_eq.
Qed.
